(** * StepUp backend: the authentication service

    A shallow embedding of [src/auth/auth.service.ts] (class [AuthService])
    and the properties of refresh-token rotation, logout, local and OAuth
    log-in and password change that follow from it.

    The service is asynchronous TypeScript over three collaborators: a Redis
    client (the refresh-token store), a user repository and a set of library
    functions (JWT signing, argon2, bcrypt).  Every method is embedded as a
    computation in a state-and-exception monad over a [World] holding the
    Redis keyspace, the user table, the clock and the randomness consumed so
    far.  Library functions are the fields of a [Platform]. *)

From Stdlib Require Import ZArith String Ascii List Lia.
From stdpp Require Import base gmap strings pretty list.

Local Open Scope Z_scope.

(** ** Data *)

(** [User] entity, as far as the service reads and writes it.  The password
    column is nullable: OAuth accounts have none. *)
Record User := mkUser {
  user_id : Z;
  user_email : string;
  user_password : option string
}.

(** [AuthJwtPayload]: [{ sub: number }]. *)
Record AuthJwtPayload := mkPayload { sub : Z }.

Module TokenResponse.
(** [TokenResponse]: what [generateTokens] and [refreshToken] return. *)
Record t := mk { accessToken : string; refreshToken : string }.
End TokenResponse.

Module LoginResponse.
(** The object literal returned by [login]. *)
Record t := mk { id : Z; accessToken : string; refreshToken : string }.
End LoginResponse.

Module IdResponse.
(** [{ id: number }], returned by the two validators. *)
Record t := mk { id : Z }.
End IdResponse.

Record UpdatePasswordRequestDto := mkUpdatePassword {
  currentPassword : string;
  newPassword : string;
  newPasswordConfirm : string
}.

Record CreateUserRequestDto := mkCreateUser { create_email : string }.

(** Exceptions a method can reject with: the two NestJS HTTP exceptions the
    service throws itself, the reply error of the Redis client, and the
    [TypeError] a library call throws on an argument it cannot read. *)
Inductive Exception :=
| UnauthorizedException (message : string)
| BadRequestException (message : string)
| ReplyError (message : string)
| TypeError (message : string).

Definition is_Unauthorized (e : Exception) : bool :=
  match e with UnauthorizedException _ => true | _ => false end.

Definition is_BadRequest (e : Exception) : bool :=
  match e with BadRequestException _ => true | _ => false end.

(** ** The world the service runs in *)

(** A Redis string key set with [SETEX]: its value and the instant, in
    seconds, at which it expires. *)
Record RedisEntry := mkEntry { entry_value : string; entry_expire_at : Z }.

Record World := mkWorld {
  redis : gmap string RedisEntry;
  users : list User;
  clock : Z;
  entropy : nat
}.

Definition set_redis (r : gmap string RedisEntry) (w : World) : World :=
  mkWorld r (users w) (clock w) (entropy w).

Definition set_users (us : list User) (w : World) : World :=
  mkWorld (redis w) us (clock w) (entropy w).

Definition next_entropy (w : World) : World :=
  mkWorld (redis w) (users w) (clock w) (S (entropy w)).

(** Time passing between two requests. *)
Definition elapse (seconds : Z) (w : World) : World :=
  mkWorld (redis w) (users w) (clock w + seconds) (entropy w).

(** ** Promises: state and exceptions *)

Inductive Settled (A : Type) :=
| Resolved (a : A)
| Rejected (e : Exception).
Arguments Resolved {A} a.
Arguments Rejected {A} e.

Definition Async (A : Type) : Type := World -> Settled A * World.

Definition resolve {A} (a : A) : Async A := fun w => (Resolved a, w).

Definition throw {A} (e : Exception) : Async A := fun w => (Rejected e, w).

Definition await {A B} (m : Async A) (k : A -> Async B) : Async B :=
  fun w =>
    match m w with
    | (Resolved a, w') => k a w'
    | (Rejected e, w') => (Rejected e, w')
    end.

Declare Scope async_scope.
Delimit Scope async_scope with async.
Notation "'let!' x ':=' m 'in' k" := (await m (fun x => k))
  (at level 10, x name, m at level 100, k at level 200) : async_scope.
Notation "m ';;;' k" := (await m (fun _ => k))
  (at level 100, k at level 200, right associativity) : async_scope.
Local Open Scope async_scope.

(** JavaScript truthiness of a [string | null] value: [null] and the empty
    string are falsy. *)
Definition truthy (v : option string) : bool :=
  match v with
  | None => false
  | Some s => negb (String.eqb s "")
  end.

(** ** Library functions *)

(** The functions the service imports.  [signAsync] is [JwtService.signAsync]:
    the token depends on the payload, on the signing options (none for the
    access token, [refreshTokenConfig] for the refresh token), on the clock
    (the issued-at stamp) and possibly on randomness.  [argon2_hash] draws a
    salt.  [argon2_verify digest plain] resolves to a boolean, or rejects:
    the library throws on a digest it cannot decode, and the service does not
    catch it.  [REDIS_REFRESH_EXPIRE_SECONDS] is
    [Number(process.env.REDIS_REFRESH_EXPIRE_SECONDS)]: [None] when that is
    not an integer ([NaN], a fraction). *)
Class Platform := mkPlatform {
  JwtSignOptions : Type;
  refreshTokenConfig : JwtSignOptions;
  signAsync : AuthJwtPayload -> option JwtSignOptions -> Z -> nat -> string;
  argon2_hash : string -> nat -> string;
  argon2_verify : string -> string -> Settled bool;
  bcrypt_hash : string -> nat -> string;
  bcrypt_compare : string -> string -> bool;
  REDIS_REFRESH_EXPIRE_SECONDS : option Z
}.

(** ** The Redis client *)

(** [SETEX key seconds value].  The server refuses a time to live that is not
    a positive integer. *)
Definition redis_setex (key : string) (seconds : option Z) (value : string)
  : Async unit :=
  fun w =>
    match seconds with
    | None =>
        (Rejected (ReplyError "ERR value is not an integer or out of range"), w)
    | Some s =>
        if 0 <? s
        then (Resolved tt,
              set_redis (<[key := mkEntry value (clock w + s)]> (redis w)) w)
        else (Rejected (ReplyError "ERR invalid expire time in 'setex' command"),
              w)
    end.

(** What a key holds at a given instant: nothing once it has expired. *)
Definition live_value (now : Z) (e : option RedisEntry) : option string :=
  match e with
  | Some e => if now <? entry_expire_at e then Some (entry_value e) else None
  | None => None
  end.

(** [GET key]. *)
Definition redis_get (key : string) : Async (option string) :=
  fun w => (Resolved (live_value (clock w) (redis w !! key)), w).

(** [DEL key]: the number of keys removed. *)
Definition redis_del (key : string) : Async Z :=
  fun w =>
    (Resolved (if live_value (clock w) (redis w !! key) is Some _ then 1 else 0),
     set_redis (delete key (redis w)) w).

(** ** The user store *)

(** Modelled from the spec: [UserRepository.findOneById] of
    src/user/user.repository.ts, which is not among the sources; the spec
    gives [findById(id) -> Identity|absent]. *)
Definition findOneById (i : Z) (us : list User) : option User :=
  List.find (fun u => user_id u =? i) us.

(** Modelled from the spec: [UserRepository.findOneByEmail], not among the
    sources; the spec gives [findByEmail(email) -> Identity|absent]. *)
Definition findOneByEmail (e : string) (us : list User) : option User :=
  List.find (fun u => String.eqb (user_email u) e) us.

(** Modelled from the spec: [UserRepository.save], not among the sources; the
    spec gives [save(Identity) -> void].  The row with the entity's id is
    replaced, or the entity is added when there is none. *)
Fixpoint save (u : User) (us : list User) : list User :=
  match us with
  | [] => [u]
  | x :: rest =>
      if user_id x =? user_id u then u :: rest else x :: save u rest
  end.

Definition fresh_id (us : list User) : Z :=
  1 + fold_right Z.max 0 (map user_id us).

(** Modelled from the spec: [UserService.createUser] of
    src/user/user.service.ts, not among the sources; the spec says that it
    creates a new identity with no password hash set and returns it. *)
Definition createUser (dto : CreateUserRequestDto) (us : list User)
  : User * list User :=
  let u := mkUser (fresh_id us) (create_email dto) None in
  (u, us ++ [u]).

Definition userRepository_findOneById (i : Z) : Async (option User) :=
  fun w => (Resolved (findOneById i (users w)), w).

Definition userRepository_findOneByEmail (e : string) : Async (option User) :=
  fun w => (Resolved (findOneByEmail e (users w)), w).

Definition userRepository_save (u : User) : Async unit :=
  fun w => (Resolved tt, set_users (save u (users w)) w).

Definition userService_createUser (dto : CreateUserRequestDto) : Async User :=
  fun w =>
    let '(u, us) := createUser dto (users w) in
    (Resolved u, set_users us w).

(** ** AuthService *)

Section AuthService.
Context {P : Platform}.

(** [jwtService.signAsync(payload, options)]. *)
Definition jwtService_signAsync (payload : AuthJwtPayload)
    (options : option JwtSignOptions) : Async string :=
  fun w =>
    (Resolved (signAsync payload options (clock w) (entropy w)),
     next_entropy w).

(** [argon2.hash(plain)]. *)
Definition argon2_hashAsync (plain : string) : Async string :=
  fun w => (Resolved (argon2_hash plain (entropy w)), next_entropy w).

(** [argon2.verify(digest, plain)]. *)
Definition argon2_verifyAsync (digest plain : string) : Async bool :=
  fun w => (argon2_verify digest plain, w).

Definition getRefreshTokenKey (userId : Z) : string :=
  "userId:" +:+ pretty userId +:+ ":refreshToken".

Definition generateTokens (userId : Z) : Async TokenResponse.t :=
  let payload := mkPayload userId in
  let! accessToken := jwtService_signAsync payload None in
  let! refreshToken :=
    jwtService_signAsync payload (Some refreshTokenConfig) in
  resolve (TokenResponse.mk accessToken refreshToken).

Definition login (userId : Z) : Async LoginResponse.t :=
  let! tokens := generateTokens userId in
  let! hashedRefreshToken :=
    argon2_hashAsync (TokenResponse.refreshToken tokens) in
  let key := getRefreshTokenKey userId in
  redis_setex key REDIS_REFRESH_EXPIRE_SECONDS hashedRefreshToken ;;;
  resolve (LoginResponse.mk userId
             (TokenResponse.accessToken tokens)
             (TokenResponse.refreshToken tokens)).

Definition logout (userId : Z) : Async unit :=
  let key := getRefreshTokenKey userId in
  redis_del key ;;;
  resolve tt.

Definition updatePassword (userId : Z) (dto : UpdatePasswordRequestDto)
  : Async unit :=
  let! user := userRepository_findOneById userId in
  match user with
  | None => throw (UnauthorizedException "존재하지 않는 유저입니다.")
  | Some user =>
      if negb (truthy (user_password user))
      then throw (UnauthorizedException "비밀번호가 없는 계정입니다.")
      else
        let isValid :=
          bcrypt_compare (currentPassword dto)
            (default "" (user_password user)) in
        if negb isValid
        then throw (UnauthorizedException "현재 비밀번호가 올바르지 않습니다.")
        else
          if negb (String.eqb (newPassword dto) (newPasswordConfirm dto))
          then throw (BadRequestException "새 비밀번호가 서로 일치하지 않습니다.")
          else
            let user :=
              mkUser (user_id user) (user_email user)
                (Some (newPassword dto)) in
            userRepository_save user
  end.

Definition refreshToken (userId : Z) : Async TokenResponse.t :=
  let! tokens := generateTokens userId in
  let! hashedRefreshToken :=
    argon2_hashAsync (TokenResponse.refreshToken tokens) in
  let key := getRefreshTokenKey userId in
  redis_setex key REDIS_REFRESH_EXPIRE_SECONDS hashedRefreshToken ;;;
  resolve (TokenResponse.mk
             (TokenResponse.accessToken tokens)
             (TokenResponse.refreshToken tokens)).

Definition updateHashedRefreshToken (userId : Z)
    (hashedRefreshToken : string) : Async unit :=
  let key := getRefreshTokenKey userId in
  redis_setex key REDIS_REFRESH_EXPIRE_SECONDS hashedRefreshToken.

Definition validateLocalUser (email password : string)
  : Async IdResponse.t :=
  let! user := userRepository_findOneByEmail email in
  match user with
  | None => throw (UnauthorizedException "존재하지 않는 유저 정보입니다.")
  | Some user =>
      if negb (truthy (user_password user))
      then throw (UnauthorizedException "존재하지 않는 유저 정보입니다.")
      else
        let isPasswordValid :=
          bcrypt_compare password (default "" (user_password user)) in
        if negb isPasswordValid
        then throw (UnauthorizedException "비밀번호를 확인해주세요.")
        else resolve (IdResponse.mk (user_id user))
  end.

Definition validateOAuthUser (dto : CreateUserRequestDto) : Async User :=
  let! user := userRepository_findOneByEmail (create_email dto) in
  match user with
  | Some user => resolve user
  | None => userService_createUser dto
  end.

Definition getHashedRefreshToken (userId : Z) : Async (option string) :=
  let key := getRefreshTokenKey userId in
  redis_get key.

Definition validateRefreshToken (userId : Z) (refreshToken : string)
  : Async IdResponse.t :=
  let! hashedRefreshToken := getHashedRefreshToken userId in
  if negb (truthy hashedRefreshToken)
  then throw (UnauthorizedException "Invalid Refresh Token")
  else
    let! isRefreshTokenValid :=
      argon2_verifyAsync (default "" hashedRefreshToken) refreshToken in
    if negb isRefreshTokenValid
    then throw (UnauthorizedException "Invalid Refresh Token")
    else resolve (IdResponse.mk userId).

End AuthService.

(** ** A concrete platform

    Stand-ins for the libraries, used to run the service on examples.  Signing
    is deterministic in the payload, the options and the issued-at second, as
    an HMAC-signed JWT is; both hashers tag the secret with their scheme, and
    each verifier accepts exactly the tagged secret.  The argon2 verifier
    throws on a string that does not start as an encoded digest does. *)
Module Demo.

Definition sign (payload : AuthJwtPayload) (options : option string)
    (now : Z) (_ : nat) : string :=
  "jwt." +:+ default "access" options +:+ "." +:+ pretty (sub payload)
    +:+ "." +:+ pretty now.

Definition argon2_hash (plain : string) (_ : nat) : string :=
  "$argon2id$" +:+ plain.

Definition argon2_verify (digest plain : string) : Settled bool :=
  match digest with
  | String "$" _ => Resolved (String.eqb digest ("$argon2id$" +:+ plain))
  | _ => Rejected (TypeError "pchstr must contain a $ as first char")
  end.

Definition bcrypt_hash (plain : string) (_ : nat) : string :=
  "$2b$10$" +:+ plain.

Definition bcrypt_compare (plain digest : string) : bool :=
  String.eqb digest ("$2b$10$" +:+ plain).

Definition platform : Platform :=
  mkPlatform string "refresh" sign argon2_hash argon2_verify
    bcrypt_hash bcrypt_compare (Some 604800).

Definition alice : User :=
  mkUser 1 "alice@example.com" (Some "$2b$10$old-pass").

Definition oauth_bob : User := mkUser 2 "bob@example.com" None.

Definition world0 : World := mkWorld ∅ [alice; oauth_bob] 1700000000 0.

End Demo.

(** ** Vocabulary of the statements *)

Section Vocabulary.
Context {P : Platform}.

(** The tokens [generateTokens] signs in a world, the digest of the refresh
    token, and the world once the three library calls have drawn. *)
Definition issuedAccessToken (u : Z) (w : World) : string :=
  signAsync (mkPayload u) None (clock w) (entropy w).

Definition issuedRefreshToken (u : Z) (w : World) : string :=
  signAsync (mkPayload u) (Some refreshTokenConfig) (clock w)
    (S (entropy w)).

Definition issuedDigest (u : Z) (w : World) : string :=
  argon2_hash (issuedRefreshToken u w) (S (S (entropy w))).

Definition after_issuing (w : World) : World :=
  next_entropy (next_entropy (next_entropy w)).

(** The slot of a user in the refresh-token store, and what it holds now. *)
Definition slot (u : Z) (w : World) : option RedisEntry :=
  redis w !! getRefreshTokenKey u.

Definition storedHash (u : Z) (w : World) : option string :=
  live_value (clock w) (slot u w).

(** The refresh-secret verifier answers on a digest the hasher made, and
    accepts it exactly for the secret it was made from; it does not take the
    empty string for a digest. *)
Definition argon2_exact : Prop :=
  forall plain salt t,
    exists b,
      argon2_verify (argon2_hash plain salt) t = Resolved b /\
      (b = true <-> t = plain).

Definition argon2_rejects_empty : Prop :=
  forall t, argon2_verify "" t <> Resolved true.

(** What [validateRefreshToken(u, t)] answers once the store has returned a
    digest: [Unauthorized] for the empty string and when the verifier says
    no, [{ id: u }] when it says yes, and the verifier's own rejection when
    it throws. *)
Definition checkDigest (u : Z) (digest t : string) : Settled IdResponse.t :=
  if String.eqb digest ""
  then Rejected (UnauthorizedException "Invalid Refresh Token")
  else
    match argon2_verify digest t with
    | Resolved true => Resolved (IdResponse.mk u)
    | Resolved false =>
        Rejected (UnauthorizedException "Invalid Refresh Token")
    | Rejected e => Rejected e
    end.

End Vocabulary.

(** ** A platform without the expiry variable

    [Demo.platform] with [REDIS_REFRESH_EXPIRE_SECONDS] unset in the
    environment: [Number(undefined)] is [NaN]. *)
Module DemoUnset.

Definition platform : Platform :=
  mkPlatform string "refresh" Demo.sign Demo.argon2_hash Demo.argon2_verify
    Demo.bcrypt_hash Demo.bcrypt_compare None.

End DemoUnset.

(** ** GenreRepository

    [src/genre/genre.repository.ts].  The class wraps a TypeORM repository of
    the [Genre] entity.  The repository, the [ContentType] enum and
    [mapGenreToEmoji] are imported: they are the fields of a [Repository].
    What [console.error] prints is not modelled. *)
Module Genre.

(** [TMDBGenre], as far as the repository reads it. *)
Record TMDBGenre := mkTMDBGenre { tmdb_id : Z; tmdb_name : string }.

(** The object literal handed to [repository.upsert]. *)
Record GenreValues (ContentType : Type) := mkValues {
  externalGenreId : string;
  name : string;
  emoji : string;
  contentType : ContentType
}.
Arguments mkValues {ContentType} _ _ _ _.
Arguments externalGenreId {ContentType} _.
Arguments name {ContentType} _.
Arguments emoji {ContentType} _.
Arguments contentType {ContentType} _.

(** A call either returns or throws. *)
Inductive Try (E A : Type) :=
| Returned (a : A)
| Thrown (e : E).
Arguments Returned {E A} a.
Arguments Thrown {E A} e.

(** [typeorm_upsert values conflictPaths] is [repository.upsert], taking the
    one entity or the array as a list; [typeorm_find contentType order] is
    [repository.find({ where: { contentType }, order: { id } })].  Both run
    on the state of the table and may throw what the driver throws. *)
Class Repository := mkRepository {
  ContentType : Type;
  GenreEntity : Type;
  Table : Type;
  QueryFailedError : Type;
  mapGenreToEmoji : string -> string;
  typeorm_upsert :
    list (GenreValues ContentType) -> list string -> Table ->
    Try QueryFailedError unit * Table;
  typeorm_find :
    ContentType -> string -> Table ->
    Try QueryFailedError (list GenreEntity) * Table
}.

(** What a method of [GenreRepository] throws: the NestJS exception it
    raises itself, or the driver's error when it does not catch it. *)
Inductive Failure (E : Type) :=
| InternalServerErrorException (message : string)
| Uncaught (e : E).
Arguments InternalServerErrorException {E} message.
Arguments Uncaught {E} e.

Section GenreRepository.
Context {R : Repository}.

Definition upsertGenre (externalGenreId name emoji : string)
    (contentType : ContentType) (t : Table)
  : Try (Failure QueryFailedError) unit * Table :=
  match typeorm_upsert [mkValues externalGenreId name emoji contentType]
          ["externalGenreId"; "contentType"] t with
  | (Returned _, t') => (Returned tt, t')
  | (Thrown _, t') =>
      (Thrown (InternalServerErrorException "장르 저장 중 오류가 발생했습니다."),
       t')
  end.

(** [genres.map(...)]: the entities [upsertGenreList] builds. *)
Definition genreEntities (genres : list TMDBGenre) (contentType : ContentType)
  : list (GenreValues ContentType) :=
  map (fun genre =>
         mkValues (pretty (tmdb_id genre)) (tmdb_name genre)
           (mapGenreToEmoji (tmdb_name genre)) contentType)
      genres.

Definition upsertGenreList (genres : list TMDBGenre)
    (contentType : ContentType) (t : Table)
  : Try (Failure QueryFailedError) unit * Table :=
  match typeorm_upsert (genreEntities genres contentType)
          ["externalGenreId"; "contentType"] t with
  | (Returned _, t') => (Returned tt, t')
  | (Thrown _, t') =>
      (Thrown
         (InternalServerErrorException "여러 장르 저장 중 오류가 발생했습니다."),
       t')
  end.

Definition findByContentType (contentType : ContentType) (t : Table)
  : Try (Failure QueryFailedError) (list GenreEntity) * Table :=
  match typeorm_find contentType "ASC" t with
  | (Returned genres, t') => (Returned genres, t')
  | (Thrown e, t') => (Thrown (Uncaught e), t')
  end.

(** The conflict target of an entity: the two columns named in the call. *)
Definition conflictKey (v : GenreValues ContentType)
  : string * ContentType :=
  (externalGenreId v, contentType v).

End GenreRepository.

(** An in-memory repository to run the methods on: a table is a connection
    flag and its rows; an upsert replaces the row with the same conflict
    target or adds one. *)
Inductive DemoContentType := MOVIE | TV.

Definition content_eqb (a b : DemoContentType) : bool :=
  match a, b with
  | MOVIE, MOVIE | TV, TV => true
  | _, _ => false
  end.

Definition same_target (a b : GenreValues DemoContentType) : bool :=
  String.eqb (externalGenreId a) (externalGenreId b)
  && content_eqb (contentType a) (contentType b).

Fixpoint put_row (v : GenreValues DemoContentType)
    (rows : list (GenreValues DemoContentType))
  : list (GenreValues DemoContentType) :=
  match rows with
  | [] => [v]
  | r :: rest => if same_target r v then v :: rest else r :: put_row v rest
  end.

Definition demo_upsert (vs : list (GenreValues DemoContentType))
    (_ : list string) (t : bool * list (GenreValues DemoContentType))
  : Try string unit * (bool * list (GenreValues DemoContentType)) :=
  if fst t
  then (Returned tt, (true, fold_left (fun rows v => put_row v rows) vs (snd t)))
  else (Thrown "ECONNREFUSED", t).

Definition demo_find (c : DemoContentType) (_ : string)
    (t : bool * list (GenreValues DemoContentType))
  : Try string (list (GenreValues DemoContentType))
    * (bool * list (GenreValues DemoContentType)) :=
  if fst t
  then (Returned (filter (fun r => content_eqb (contentType r) c = true)
                    (snd t)), t)
  else (Thrown "ECONNREFUSED", t).

Definition demo_emoji (name : string) : string :=
  if String.eqb name "Action" then "A" else "?".

Definition demo : Repository :=
  mkRepository DemoContentType (GenreValues DemoContentType)
    (bool * list (GenreValues DemoContentType)) string
    demo_emoji demo_upsert demo_find.

End Genre.

(** ** DatabaseModule

    [src/common/database/database.module.ts]: the factory of the TypeORM
    options.  The configuration service is the map of the values it holds;
    [getOrThrow] throws a [TypeError] naming the key when there is none. *)
Module Database.

Inductive ConfigError :=
| MissingKey (key : string).

Definition getOrThrow (config : gmap string string) (key : string)
  : ConfigError + string :=
  match config !! key with
  | Some value => inr value
  | None => inl (MissingKey key)
  end.

Record TypeOrmModuleOptions := mkOptions {
  type : string;
  host : string;
  port : string;
  username : string;
  database : string;
  password : string;
  autoLoadEntities : bool;
  synchronize : string;
  dropSchema : bool;
  logging : bool
}.

Definition andThen {A B} (r : ConfigError + A) (k : A -> ConfigError + B)
  : ConfigError + B :=
  match r with
  | inl e => inl e
  | inr a => k a
  end.

(** The object literal: its properties are evaluated in the order written. *)
Definition useFactory (configService : gmap string string)
  : ConfigError + TypeOrmModuleOptions :=
  andThen (getOrThrow configService "MYSQL_HOST") (fun host =>
  andThen (getOrThrow configService "MYSQL_PORT") (fun port =>
  andThen (getOrThrow configService "MYSQL_USERNAME") (fun username =>
  andThen (getOrThrow configService "MYSQL_DATABASE") (fun database =>
  andThen (getOrThrow configService "MYSQL_PASSWORD") (fun password =>
  andThen (getOrThrow configService "MYSQL_SYNCHRONIZE") (fun synchronize =>
  inr (mkOptions "mysql" host port username database password true
         synchronize true true))))))).

(** The keys the factory asks for, in the order it asks. *)
Definition requiredKeys : list string :=
  ["MYSQL_HOST"; "MYSQL_PORT"; "MYSQL_USERNAME"; "MYSQL_DATABASE";
   "MYSQL_PASSWORD"; "MYSQL_SYNCHRONIZE"].

Definition is_missing (config : gmap string string) (key : string) : bool :=
  if config !! key is Some _ then false else true.

Definition demo_config : gmap string string :=
  list_to_map
    [("MYSQL_HOST", "localhost"); ("MYSQL_PORT", "3306");
     ("MYSQL_USERNAME", "stepup"); ("MYSQL_DATABASE", "stepup");
     ("MYSQL_PASSWORD", "secret"); ("MYSQL_SYNCHRONIZE", "true")].

End Database.

(** Unfold the monad and the collaborators' calls. *)
Ltac run :=
  cbv [await resolve throw redis_setex redis_get redis_del
       userRepository_findOneById userRepository_findOneByEmail
       userRepository_save userService_createUser].

(** ** Strings and keys *)

Lemma list_ascii_of_string_app (s t : string) :
  list_ascii_of_string (s +:+ t)
  = list_ascii_of_string s ++ list_ascii_of_string t.
Proof. induction s as [|c s IH]; [done|]. cbn. by rewrite <- IH. Qed.

Lemma string_app_inv_tail (s1 s2 t : string) :
  s1 +:+ t = s2 +:+ t -> s1 = s2.
Proof.
  intros H.
  apply (f_equal list_ascii_of_string) in H.
  rewrite !list_ascii_of_string_app in H.
  apply app_inv_tail in H.
  rewrite <- (string_of_list_ascii_of_string s1).
  rewrite <- (string_of_list_ascii_of_string s2).
  by rewrite H.
Qed.

Lemma getRefreshTokenKey_inj (u v : Z) :
  getRefreshTokenKey u = getRefreshTokenKey v -> u = v.
Proof.
  unfold getRefreshTokenKey. intros H.
  apply (inj (String.app "userId:")) in H.
  apply string_app_inv_tail in H.
  by apply (inj pretty) in H.
Qed.

Example getRefreshTokenKey_42 : getRefreshTokenKey 42 = "userId:42:refreshToken".
Proof. by vm_compute. Qed.

(** ** What the methods compute *)

Section Runs.
Context {P : Platform}.

Lemma generateTokens_run (u : Z) (w : World) :
  generateTokens u w
  = (Resolved
       (TokenResponse.mk (issuedAccessToken u w) (issuedRefreshToken u w)),
     next_entropy (next_entropy w)).
Proof. reflexivity. Qed.

Lemma refreshToken_run (u : Z) (w : World) :
  refreshToken u w
  = match redis_setex (getRefreshTokenKey u) REDIS_REFRESH_EXPIRE_SECONDS
            (issuedDigest u w) (after_issuing w) with
    | (Resolved _, w') =>
        (Resolved
           (TokenResponse.mk (issuedAccessToken u w)
              (issuedRefreshToken u w)), w')
    | (Rejected e, w') => (Rejected e, w')
    end.
Proof. reflexivity. Qed.

Lemma login_run (u : Z) (w : World) :
  login u w
  = match redis_setex (getRefreshTokenKey u) REDIS_REFRESH_EXPIRE_SECONDS
            (issuedDigest u w) (after_issuing w) with
    | (Resolved _, w') =>
        (Resolved
           (LoginResponse.mk u (issuedAccessToken u w)
              (issuedRefreshToken u w)), w')
    | (Rejected e, w') => (Rejected e, w')
    end.
Proof. reflexivity. Qed.

(** [SETEX] either writes one slot or rejects and writes nothing. *)
Lemma redis_setex_cases (key : string) (seconds : option Z) (value : string)
    (w : World) :
  (exists s, seconds = Some s /\ 0 < s /\
     redis_setex key seconds value w
     = (Resolved tt,
        set_redis (<[key := mkEntry value (clock w + s)]> (redis w)) w))
  \/ (exists m, redis_setex key seconds value w = (Rejected (ReplyError m), w)).
Proof.
  unfold redis_setex. destruct seconds as [s|]; [|right; eauto].
  destruct (0 <? s) eqn:Hs; [|right; eauto].
  left. exists s. apply Z.ltb_lt in Hs. done.
Qed.

Lemma getHashedRefreshToken_run (u : Z) (w : World) :
  getHashedRefreshToken u w
  = (Resolved (live_value (clock w) (redis w !! getRefreshTokenKey u)), w).
Proof. reflexivity. Qed.

Lemma validateRefreshToken_run (u : Z) (t : string) (w : World) :
  validateRefreshToken u t w
  = (match live_value (clock w) (redis w !! getRefreshTokenKey u) with
     | Some h => checkDigest u h t
     | None => Rejected (UnauthorizedException "Invalid Refresh Token")
     end, w).
Proof.
  unfold validateRefreshToken, await. rewrite getHashedRefreshToken_run.
  destruct (live_value _ _) as [h|]; [|done]. cbn. unfold checkDigest.
  destruct (String.eqb h ""); [done|]. cbn. unfold argon2_verifyAsync.
  by destruct (argon2_verify h t) as [[]|e].
Qed.

Lemma logout_run (u : Z) (w : World) :
  logout u w
  = (Resolved tt, set_redis (delete (getRefreshTokenKey u) (redis w)) w).
Proof. reflexivity. Qed.

End Runs.

(** ** The refresh-token store *)

Section Store.
Context {P : Platform}.

(** A write into the store changes no slot when it is rejected. *)
Lemma redis_setex_rejected (key : string) (seconds : option Z)
    (value : string) (w w' : World) (e : Exception) :
  redis_setex key seconds value w = (Rejected e, w') -> w' = w.
Proof.
  unfold redis_setex. destruct seconds as [s|]; [destruct (0 <? s)|];
    intros H; by inversion H.
Qed.

Lemma redis_setex_frame (key key' : string) (seconds : option Z)
    (value : string) (w : World) :
  key <> key' ->
  redis (snd (redis_setex key seconds value w)) !! key' = redis w !! key'.
Proof.
  intros Hne. unfold redis_setex.
  destruct seconds as [s|]; [destruct (0 <? s)|]; cbn; [|done..].
  by rewrite lookup_insert_ne.
Qed.

Lemma login_world (u : Z) (w : World) :
  snd (login u w)
  = snd (redis_setex (getRefreshTokenKey u) REDIS_REFRESH_EXPIRE_SECONDS
           (issuedDigest u w) (after_issuing w)).
Proof. rewrite login_run. by destruct (redis_setex _ _ _ _) as [[]]. Qed.

Lemma refreshToken_world (u : Z) (w : World) :
  snd (refreshToken u w)
  = snd (redis_setex (getRefreshTokenKey u) REDIS_REFRESH_EXPIRE_SECONDS
           (issuedDigest u w) (after_issuing w)).
Proof. rewrite refreshToken_run. by destruct (redis_setex _ _ _ _) as [[]]. Qed.

(** The outcome of [refreshToken], when it completes. *)
Lemma refreshToken_resolved (u : Z) (w w' : World) (r : TokenResponse.t) :
  refreshToken u w = (Resolved r, w') ->
  exists s,
    REDIS_REFRESH_EXPIRE_SECONDS = Some s /\ 0 < s /\
    r = TokenResponse.mk (issuedAccessToken u w) (issuedRefreshToken u w) /\
    w' = set_redis
           (<[getRefreshTokenKey u :=
                mkEntry (issuedDigest u w) (clock w + s)]> (redis w))
           (after_issuing w).
Proof.
  rewrite refreshToken_run.
  destruct (redis_setex_cases (getRefreshTokenKey u)
              REDIS_REFRESH_EXPIRE_SECONDS (issuedDigest u w)
              (after_issuing w)) as [(s & Hs & Hpos & ->)|(m & ->)];
    intros H; inversion H; subst. eauto.
Qed.

End Store.

(** ** Keys and values of the refresh-token record *)

Section Records.
Context {P : Platform}.

Lemma setex_outcome_slot (key value : string) (w0 w : World) :
  redis w = redis w0 ->
  match redis_setex key REDIS_REFRESH_EXPIRE_SECONDS value w with
  | (Resolved _, w') =>
      exists e, entry_value e = value /\ redis w' = <[key := e]> (redis w0)
  | (Rejected _, w') => redis w' = redis w0
  end.
Proof.
  intros Hr.
  destruct (redis_setex_cases key REDIS_REFRESH_EXPIRE_SECONDS value w)
    as [(s & _ & _ & ->)|(m & ->)]; [|done].
  eexists. split; [|cbn; by rewrite Hr]. done.
Qed.

(** C9, as the code has it.  Every operation of the service on the
    refresh-token store addresses the key ["userId:<u>:refreshToken"], [<u>]
    being the decimal rendering of the user id.  [login] and [refreshToken]
    write there the argon2 digest of the refresh token they return;
    [updateHashedRefreshToken] writes its [hashedRefreshToken] argument as it
    is given, whatever string that is; a rejected write changes nothing;
    [logout] deletes that key; [getHashedRefreshToken] and
    [validateRefreshToken] read that key and nothing else. *)
Theorem refresh_token_record_key_and_value
    (u : Z) (w : World) (h t : string) :
  let key := "userId:" +:+ pretty u +:+ ":refreshToken" in
  match login u w with
  | (Resolved r, w') =>
      exists e salt,
        entry_value e = argon2_hash (LoginResponse.refreshToken r) salt /\
        redis w' = <[key := e]> (redis w)
  | (Rejected _, w') => redis w' = redis w
  end /\
  match refreshToken u w with
  | (Resolved r, w') =>
      exists e salt,
        entry_value e = argon2_hash (TokenResponse.refreshToken r) salt /\
        redis w' = <[key := e]> (redis w)
  | (Rejected _, w') => redis w' = redis w
  end /\
  match updateHashedRefreshToken u h w with
  | (Resolved _, w') =>
      exists e, entry_value e = h /\ redis w' = <[key := e]> (redis w)
  | (Rejected _, w') => redis w' = redis w
  end /\
  redis (snd (logout u w)) = delete key (redis w) /\
  getHashedRefreshToken u w
  = (Resolved (live_value (clock w) (redis w !! key)), w) /\
  validateRefreshToken u t w
  = (match live_value (clock w) (redis w !! key) with
     | Some d =>
         if String.eqb d ""
         then Rejected (UnauthorizedException "Invalid Refresh Token")
         else
           match argon2_verify d t with
           | Resolved true => Resolved (IdResponse.mk u)
           | Resolved false =>
               Rejected (UnauthorizedException "Invalid Refresh Token")
           | Rejected e => Rejected e
           end
     | None => Rejected (UnauthorizedException "Invalid Refresh Token")
     end, w).
Proof.
  intros key. change key with (getRefreshTokenKey u).
  repeat split.
  - rewrite login_run.
    pose proof (setex_outcome_slot (getRefreshTokenKey u) (issuedDigest u w)
                  w (after_issuing w) eq_refl) as H.
    destruct (redis_setex _ _ _ _) as [[[]|e] w']; [|done].
    destruct H as (e & He & Hw). exists e, (S (S (entropy w))). done.
  - rewrite refreshToken_run.
    pose proof (setex_outcome_slot (getRefreshTokenKey u) (issuedDigest u w)
                  w (after_issuing w) eq_refl) as H.
    destruct (redis_setex _ _ _ _) as [[[]|e] w']; [|done].
    destruct H as (e & He & Hw). exists e, (S (S (entropy w))). done.
  - apply (setex_outcome_slot (getRefreshTokenKey u) h w w eq_refl).
  - apply validateRefreshToken_run.
Qed.

(** C10. An operation invoked for user [u] leaves the slot of every other
    user [v] as it was: the key function is injective and each operation
    touches the key of its own argument only.  The two reading operations
    leave the whole world as it was. *)
Theorem other_users_slot_unchanged (u v : Z) (w : World) (h t : string) :
  u <> v ->
  (forall a b, getRefreshTokenKey a = getRefreshTokenKey b -> a = b) /\
  slot v (snd (login u w)) = slot v w /\
  slot v (snd (logout u w)) = slot v w /\
  slot v (snd (refreshToken u w)) = slot v w /\
  slot v (snd (updateHashedRefreshToken u h w)) = slot v w /\
  snd (validateRefreshToken u t w) = w /\
  snd (getHashedRefreshToken u w) = w.
Proof.
  intros Huv.
  assert (getRefreshTokenKey u <> getRefreshTokenKey v) as Hk
    by (intros H; by apply getRefreshTokenKey_inj in H).
  split; [exact getRefreshTokenKey_inj|].
  unfold slot. repeat split.
  - rewrite login_world. by rewrite redis_setex_frame.
  - rewrite logout_run. cbn. by rewrite lookup_delete_ne.
  - rewrite refreshToken_world. by rewrite redis_setex_frame.
  - unfold updateHashedRefreshToken. by rewrite redis_setex_frame.
  - by rewrite validateRefreshToken_run.
Qed.

Lemma storedHash_None (u : Z) (w : World) :
  storedHash u w = None <->
  slot u w = None \/
  exists e, slot u w = Some e /\ entry_expire_at e <= clock w.
Proof.
  unfold storedHash, live_value. destruct (slot u w) as [e|]; [|naive_solver].
  destruct (clock w <? entry_expire_at e) eqn:Hlt.
  - apply Z.ltb_lt in Hlt. split; [done|].
    intros [|(e' & He' & Hle)]; [done|]. inversion He'; subst. lia.
  - apply Z.ltb_ge in Hlt. naive_solver.
Qed.

(** C3, as the code has it.  [validateRefreshToken(u, t)] is rejected with
    [Unauthorized] when the store holds no value for [u] (none was set, or it
    has expired), when the stored value is the empty string, and when the
    verifier answers no for the stored digest against [t]; it resolves to
    [{ id: u }] exactly when a non-empty value is stored and the verifier
    answers yes.  When the verifier itself throws, the stored value not being
    a digest it can decode, the method rejects with what the verifier threw:
    it catches nothing.  It makes no other check and writes nothing. *)
Theorem validateRefreshToken_outcomes (u : Z) (t : string) (w : World) :
  (storedHash u w = None ->
   fst (validateRefreshToken u t w)
   = Rejected (UnauthorizedException "Invalid Refresh Token")) /\
  (storedHash u w = Some "" ->
   fst (validateRefreshToken u t w)
   = Rejected (UnauthorizedException "Invalid Refresh Token")) /\
  (forall d,
     storedHash u w = Some d -> d <> "" ->
     (argon2_verify d t = Resolved false ->
      fst (validateRefreshToken u t w)
      = Rejected (UnauthorizedException "Invalid Refresh Token")) /\
     (argon2_verify d t = Resolved true ->
      fst (validateRefreshToken u t w) = Resolved (IdResponse.mk u)) /\
     (forall e,
        argon2_verify d t = Rejected e ->
        fst (validateRefreshToken u t w) = Rejected e)) /\
  (fst (validateRefreshToken u t w) = Resolved (IdResponse.mk u)
   <-> exists d,
         storedHash u w = Some d /\ d <> "" /\
         argon2_verify d t = Resolved true) /\
  (forall e,
     fst (validateRefreshToken u t w) = Rejected e ->
     e = UnauthorizedException "Invalid Refresh Token" \/
     exists d, storedHash u w = Some d /\ argon2_verify d t = Rejected e) /\
  (storedHash u w = None <->
   slot u w = None \/
   exists e, slot u w = Some e /\ entry_expire_at e <= clock w) /\
  snd (validateRefreshToken u t w) = w.
Proof.
  rewrite validateRefreshToken_run. cbn [fst snd].
  fold (slot u w). fold (storedHash u w). unfold checkDigest.
  split; [by intros ->|]. split; [by intros ->|].
  split; [|split; [|split; [|split; [apply storedHash_None|done]]]].
  - intros d -> Hd. apply String.eqb_neq in Hd. rewrite Hd.
    split; [by intros ->|]. split; [by intros ->|]. by intros e ->.
  - destruct (storedHash u w) as [d|];
      [|split; [done|intros (d & Hd & _); done]].
    destruct (String.eqb_spec d "") as [->|Hd].
    { split; [done|]. intros (d' & [= <-] & Hne & _). done. }
    destruct (argon2_verify d t) as [[]|e] eqn:Hv.
    + split; [|done]. intros _. by exists d.
    + split; [done|]. intros (d' & [= <-] & _ & Hv'). congruence.
    + split; [done|]. intros (d' & [= <-] & _ & Hv'). congruence.
  - intros e. destruct (storedHash u w) as [d|];
      [|intros [= <-]; by left].
    destruct (String.eqb d ""); [intros [= <-]; by left|].
    destruct (argon2_verify d t) as [[]|e'] eqn:Hv; intros H;
      inversion H; subst; [by left|]. right. by exists d.
Qed.

(** C5. [logout(u)] always resolves, whether or not a record existed, and
    running it again changes nothing more.  From then on, whatever time
    passes, [validateRefreshToken(u, t)] is rejected with [Unauthorized] for
    every token [t]. *)
Theorem logout_invalidates_refresh_token
    (u : Z) (t : string) (w : World) (d : Z) :
  fst (logout u w) = Resolved tt /\
  logout u (snd (logout u w)) = (Resolved tt, snd (logout u w)) /\
  slot u (snd (logout u w)) = None /\
  validateRefreshToken u t (elapse d (snd (logout u w)))
  = (Rejected (UnauthorizedException "Invalid Refresh Token"),
     elapse d (snd (logout u w))).
Proof.
  rewrite !logout_run. cbn [fst snd]. unfold slot.
  repeat split.
  - unfold set_redis. cbn. by rewrite delete_delete_eq.
  - cbn. apply lookup_delete_eq.
  - rewrite validateRefreshToken_run. cbn. by rewrite lookup_delete_eq.
Qed.

End Records.

(** ** Rotation *)

Section Rotation.
Context {P : Platform}.

Lemma argon2_hash_nonempty (plain : string) (salt : nat) :
  argon2_exact -> argon2_rejects_empty -> argon2_hash plain salt <> "".
Proof.
  intros Hexact Hempty Heq.
  destruct (Hexact plain salt plain) as (b & Hv & Hb).
  rewrite (proj2 Hb eq_refl), Heq in Hv. by apply (Hempty plain).
Qed.

(** On a digest the hasher made, the check passes for the secret and is
    refused with [Unauthorized] for anything else. *)
Lemma checkDigest_own (u : Z) (plain : string) (salt : nat) :
  argon2_exact -> argon2_rejects_empty ->
  checkDigest u (argon2_hash plain salt) plain = Resolved (IdResponse.mk u).
Proof.
  intros Hexact Hempty. unfold checkDigest.
  assert (String.eqb (argon2_hash plain salt) "" = false) as ->
    by (apply String.eqb_neq; by apply argon2_hash_nonempty).
  destruct (Hexact plain salt plain) as (b & -> & Hb).
  by rewrite (proj2 Hb eq_refl).
Qed.

Lemma checkDigest_other (u : Z) (plain t : string) (salt : nat) :
  argon2_exact -> t <> plain ->
  checkDigest u (argon2_hash plain salt) t
  = Rejected (UnauthorizedException "Invalid Refresh Token").
Proof.
  intros Hexact Hne. unfold checkDigest.
  destruct (String.eqb _ ""); [done|].
  destruct (Hexact plain salt t) as (b & -> & Hb).
  destruct b; [|done]. by destruct Hne; apply Hb.
Qed.

(** X2. The record [refreshToken(u)] writes lives for the configured number
    of seconds: the refresh token just issued validates for [u] until then
    and is rejected with [Unauthorized] from then on. *)
Lemma refreshToken_lifetime
    (u : Z) (w w' : World) (r : TokenResponse.t) (s d : Z) :
  argon2_exact -> argon2_rejects_empty ->
  REDIS_REFRESH_EXPIRE_SECONDS = Some s ->
  refreshToken u w = (Resolved r, w') ->
  fst (validateRefreshToken u (TokenResponse.refreshToken r) (elapse d w'))
  = if d <? s
    then Resolved (IdResponse.mk u)
    else Rejected (UnauthorizedException "Invalid Refresh Token").
Proof.
  intros Hexact Hempty Hs Hrun.
  apply refreshToken_resolved in Hrun as (s' & Hs' & Hpos & -> & ->).
  assert (s' = s) as -> by congruence.
  rewrite validateRefreshToken_run. cbn. rewrite lookup_insert_eq. cbn.
  assert ((clock w + d <? clock w + s) = (d <? s)) as ->.
  { destruct (d <? s) eqn:Hd.
    - apply Z.ltb_lt in Hd. apply Z.ltb_lt. lia.
    - apply Z.ltb_ge in Hd. apply Z.ltb_ge. lia. }
  destruct (d <? s); [|done].
  by apply checkDigest_own.
Qed.

(** C1, as the code has it.  Once [refreshToken(u)] has completed, returning
    a pair whose refresh token is [newRaw], the slot of [u] holds the digest
    of [newRaw]: [validateRefreshToken(u, newRaw)] resolves to [{ id: u }],
    and [validateRefreshToken(u, oldRaw)] is rejected with [Unauthorized],
    then and at any later instant, for every [oldRaw] other than [newRaw].
    The verifier is one that accepts a digest exactly for the secret it was
    made from. *)
Theorem refreshToken_rotation
    (u : Z) (oldRaw : string) (w w' : World) (r : TokenResponse.t) (d : Z) :
  argon2_exact -> argon2_rejects_empty ->
  refreshToken u w = (Resolved r, w') ->
  validateRefreshToken u (TokenResponse.refreshToken r) w'
  = (Resolved (IdResponse.mk u), w') /\
  (exists e salt,
     slot u w' = Some e /\
     entry_value e = argon2_hash (TokenResponse.refreshToken r) salt) /\
  (oldRaw <> TokenResponse.refreshToken r ->
   validateRefreshToken u oldRaw (elapse d w')
   = (Rejected (UnauthorizedException "Invalid Refresh Token"),
      elapse d w')).
Proof.
  intros Hexact Hempty Hrun.
  apply refreshToken_resolved in Hrun as (s & Hs & Hpos & -> & ->).
  cbn [TokenResponse.refreshToken].
  set (key := getRefreshTokenKey u).
  set (w2 := set_redis _ _).
  assert (redis w2 !! key = Some (mkEntry (issuedDigest u w) (clock w + s)))
    as Hslot by (subst w2; cbn; apply lookup_insert_eq).
  repeat split.
  - rewrite validateRefreshToken_run. fold key. rewrite Hslot. cbn.
    assert ((clock w <? clock w + s) = true) as -> by (apply Z.ltb_lt; lia).
    f_equal. by apply checkDigest_own.
  - exists (mkEntry (issuedDigest u w) (clock w + s)), (S (S (entropy w))).
    done.
  - intros Hold. rewrite validateRefreshToken_run. fold key.
    cbn [redis clock elapse]. rewrite Hslot. cbn.
    destruct (_ <? _); [|done]. f_equal. by apply checkDigest_other.
Qed.

(** C6. [refreshToken(u)] and [login(u)] run the same sequence: issue the
    pair, hash the refresh token with argon2, [SETEX] the digest under the
    key of [u] with the configured time to live.  They leave the same world
    and carry the same tokens; [login] adds the [id] field.  Neither looks at
    the store or at the user table, and neither rejects with [Unauthorized]
    or [BadRequest]. *)
Theorem login_refreshToken_same_sequence (u : Z) (w : World) :
  login u w
  = (match fst (refreshToken u w) with
     | Resolved r =>
         Resolved (LoginResponse.mk u (TokenResponse.accessToken r)
                     (TokenResponse.refreshToken r))
     | Rejected e => Rejected e
     end, snd (refreshToken u w)) /\
  refreshToken u w
  = (let! tokens := generateTokens u in
     let! digest := argon2_hashAsync (TokenResponse.refreshToken tokens) in
     redis_setex ("userId:" +:+ pretty u +:+ ":refreshToken")
       REDIS_REFRESH_EXPIRE_SECONDS digest ;;;
     resolve tokens) w /\
  (forall store store' table table',
     fst (refreshToken u (mkWorld store table (clock w) (entropy w)))
     = fst (refreshToken u (mkWorld store' table' (clock w) (entropy w)))) /\
  (forall e, fst (refreshToken u w) = Rejected e ->
             is_Unauthorized e = false /\ is_BadRequest e = false) /\
  (fst (refreshToken u w)
   = Resolved (TokenResponse.mk (issuedAccessToken u w)
                 (issuedRefreshToken u w))
   <-> exists s, REDIS_REFRESH_EXPIRE_SECONDS = Some s /\ 0 < s).
Proof.
  split; [|split; [|split; [|split]]].
  - rewrite login_run, refreshToken_run.
    by destruct (redis_setex _ _ _ _) as [[[]|e] w'].
  - rewrite refreshToken_run. unfold await. rewrite generateTokens_run.
    cbn [argon2_hashAsync TokenResponse.refreshToken].
    change ("userId:" +:+ pretty u +:+ ":refreshToken")
      with (getRefreshTokenKey u).
    change (next_entropy (next_entropy (next_entropy w)))
      with (after_issuing w).
    unfold issuedDigest.
    by destruct (redis_setex _ _ _ _) as [[[]|e] w'].
  - intros store store' table table'. rewrite !refreshToken_run.
    unfold redis_setex.
    destruct REDIS_REFRESH_EXPIRE_SECONDS as [s|]; [|done].
    by destruct (0 <? s).
  - intros e. rewrite refreshToken_run.
    destruct (redis_setex_cases (getRefreshTokenKey u)
                REDIS_REFRESH_EXPIRE_SECONDS (issuedDigest u w)
                (after_issuing w)) as [(s & _ & _ & ->)|(m & ->)];
      cbn; intros H; inversion H; subst. done.
  - rewrite refreshToken_run.
    destruct (redis_setex_cases (getRefreshTokenKey u)
                REDIS_REFRESH_EXPIRE_SECONDS (issuedDigest u w)
                (after_issuing w)) as [(s & Hs & Hpos & ->)|(m & Hm)].
    + cbn. split; [eauto|done].
    + rewrite Hm. cbn. split; [done|]. intros (s & Hs & Hpos).
      unfold redis_setex in Hm. rewrite Hs in Hm.
      assert ((0 <? s) = true) as Hlt by (apply Z.ltb_lt; lia).
      rewrite Hlt in Hm. done.
Qed.

End Rotation.

(** ** The user table *)

Lemma findOneById_id (i : Z) (us : list User) (u : User) :
  findOneById i us = Some u -> user_id u = i.
Proof.
  unfold findOneById. intros H. apply find_some in H as [_ H].
  by apply Z.eqb_eq in H.
Qed.

Lemma findOneByEmail_email (e : string) (us : list User) (u : User) :
  findOneByEmail e us = Some u -> user_email u = e.
Proof.
  unfold findOneByEmail. intros H. apply find_some in H as [_ H].
  by apply String.eqb_eq in H.
Qed.

Lemma findOneById_save (u : User) (us : list User) :
  findOneById (user_id u) (save u us) = Some u.
Proof.
  unfold findOneById. induction us as [|x rest IH]; cbn.
  - by rewrite Z.eqb_refl.
  - destruct (user_id x =? user_id u) eqn:Hx; cbn.
    + by rewrite Z.eqb_refl.
    + by rewrite Hx.
Qed.

Lemma save_length (u user : User) (us : list User) :
  findOneById (user_id u) us = Some user -> length (save u us) = length us.
Proof.
  unfold findOneById. induction us as [|x rest IH]; cbn; [done|].
  destruct (user_id x =? user_id u); cbn; [done|]. intros H. by rewrite IH.
Qed.

Lemma findOneByEmail_app_new (e : string) (us : list User) (u : User) :
  findOneByEmail e us = None -> user_email u = e ->
  findOneByEmail e (us ++ [u]) = Some u.
Proof.
  unfold findOneByEmail. intros Hnone He.
  induction us as [|x rest IH]; cbn in *.
  - by rewrite He, String.eqb_refl.
  - destruct (String.eqb (user_email x) e); [done|]. by apply IH.
Qed.

Lemma fresh_id_above (us : list User) (x : User) :
  In x us -> user_id x < fresh_id us.
Proof.
  unfold fresh_id. induction us as [|y rest IH]; cbn; [done|].
  intros [->|Hin]; [lia|]. specialize (IH Hin). lia.
Qed.

(** ** Passwords and identities *)

Section Identities.
Context {P : Platform}.

Lemma updatePassword_run (u : Z) (dto : UpdatePasswordRequestDto)
    (w : World) :
  updatePassword u dto w
  = match findOneById u (users w) with
    | None => (Rejected (UnauthorizedException "존재하지 않는 유저입니다."), w)
    | Some user =>
        match user_password user with
        | None =>
            (Rejected (UnauthorizedException "비밀번호가 없는 계정입니다."), w)
        | Some h =>
            if String.eqb h ""
            then (Rejected (UnauthorizedException "비밀번호가 없는 계정입니다."),
                  w)
            else if bcrypt_compare (currentPassword dto) h
            then
              if String.eqb (newPassword dto) (newPasswordConfirm dto)
              then (Resolved tt,
                    set_users
                      (save (mkUser (user_id user) (user_email user)
                               (Some (newPassword dto))) (users w)) w)
              else (Rejected
                      (BadRequestException "새 비밀번호가 서로 일치하지 않습니다."),
                    w)
            else (Rejected
                    (UnauthorizedException "현재 비밀번호가 올바르지 않습니다."),
                  w)
        end
    end.
Proof.
  unfold updatePassword. run.
  destruct (findOneById u (users w)) as [user|]; [|done].
  destruct (user_password user) as [h|]; [|done]. cbn.
  destruct (String.eqb h ""); [done|]. cbn.
  destruct (bcrypt_compare _ h); [|done]. cbn.
  by destruct (String.eqb (newPassword dto) (newPasswordConfirm dto)).
Qed.

Lemma validateLocalUser_run (e p : string) (w : World) :
  validateLocalUser e p w
  = (match findOneByEmail e (users w) with
     | None => Rejected (UnauthorizedException "존재하지 않는 유저 정보입니다.")
     | Some user =>
         match user_password user with
         | None =>
             Rejected (UnauthorizedException "존재하지 않는 유저 정보입니다.")
         | Some h =>
             if String.eqb h ""
             then Rejected
                    (UnauthorizedException "존재하지 않는 유저 정보입니다.")
             else if bcrypt_compare p h
             then Resolved (IdResponse.mk (user_id user))
             else Rejected (UnauthorizedException "비밀번호를 확인해주세요.")
         end
     end, w).
Proof.
  unfold validateLocalUser. run.
  destruct (findOneByEmail e (users w)) as [user|]; [|done].
  destruct (user_password user) as [h|]; [|done]. cbn.
  destruct (String.eqb h ""); [done|]. cbn.
  by destruct (bcrypt_compare p h).
Qed.

(** What [updatePassword] persists when it passes all its checks: the
    [newPassword] string as it came in. *)
Lemma updatePassword_resolved (u : Z) (dto : UpdatePasswordRequestDto)
    (w w' : World) :
  updatePassword u dto w = (Resolved tt, w') ->
  exists user,
    findOneById u (users w) = Some user /\
    findOneById u (users w')
    = Some (mkUser u (user_email user) (Some (newPassword dto))) /\
    redis w' = redis w.
Proof.
  rewrite updatePassword_run.
  destruct (findOneById u (users w)) as [user|] eqn:Hfind; [|done].
  destruct (user_password user) as [h|]; [|done].
  destruct (String.eqb h ""); [done|].
  destruct (bcrypt_compare _ h); [|done].
  destruct (String.eqb _ _); [|done].
  intros H. inversion H; subst. exists user.
  pose proof (findOneById_id _ _ _ Hfind) as Hid.
  split; [done|]. split; [|done]. cbn.
  rewrite Hid.
  apply (findOneById_save (mkUser u (user_email user) (Some (newPassword dto)))).
Qed.

End Identities.

Section IdentityClaims.
Context {P : Platform}.

(** C4. [updatePassword] is rejected with [Unauthorized] when there is no
    user with that id, when the user has no password (the column is null or
    empty), or when [currentPassword] fails bcrypt's comparison with the
    stored hash; it is rejected with [BadRequest] when [newPassword] differs
    from [newPasswordConfirm], which is looked at only once the current
    password has passed.  Whenever it is rejected nothing is saved: the world
    is as it was. *)
Theorem updatePassword_guards
    (u : Z) (dto : UpdatePasswordRequestDto) (w : World) :
  (findOneById u (users w) = None ->
   updatePassword u dto w
   = (Rejected (UnauthorizedException "존재하지 않는 유저입니다."), w)) /\
  (forall user,
     findOneById u (users w) = Some user ->
     (truthy (user_password user) = false ->
      updatePassword u dto w
      = (Rejected (UnauthorizedException "비밀번호가 없는 계정입니다."), w)) /\
     (forall h,
        user_password user = Some h -> h <> "" ->
        (bcrypt_compare (currentPassword dto) h = false ->
         updatePassword u dto w
         = (Rejected (UnauthorizedException "현재 비밀번호가 올바르지 않습니다."),
            w)) /\
        (bcrypt_compare (currentPassword dto) h = true ->
         newPassword dto <> newPasswordConfirm dto ->
         updatePassword u dto w
         = (Rejected (BadRequestException "새 비밀번호가 서로 일치하지 않습니다."),
            w)))) /\
  (forall e w',
     updatePassword u dto w = (Rejected e, w') ->
     w' = w /\
     (is_BadRequest e = true ->
      exists user h,
        findOneById u (users w) = Some user /\
        user_password user = Some h /\
        bcrypt_compare (currentPassword dto) h = true /\
        newPassword dto <> newPasswordConfirm dto) /\
     (is_BadRequest e = false -> is_Unauthorized e = true)).
Proof.
  rewrite updatePassword_run. split; [|split].
  - by intros ->.
  - intros user ->. split.
    + destruct (user_password user) as [h|]; [|done]. cbn.
      destruct (String.eqb h ""); [done|]. by cbn.
    + intros h -> Hh. apply String.eqb_neq in Hh. rewrite Hh. split.
      * by intros ->.
      * intros -> Hneq. apply String.eqb_neq in Hneq. by rewrite Hneq.
  - intros e w'.
    destruct (findOneById u (users w)) as [user|];
      [|intros H; by inversion H].
    destruct (user_password user) as [h|] eqn:Hpw;
      [|intros H; by inversion H].
    destruct (String.eqb h ""); [intros H; by inversion H|].
    destruct (bcrypt_compare _ h) eqn:Hcmp; [|intros H; by inversion H].
    destruct (String.eqb_spec (newPassword dto) (newPasswordConfirm dto))
      as [Heq|Hneq]; [intros H; by inversion H|].
    intros H; inversion H; subst. split; [done|]. split; [|done].
    intros _. by exists user, h.
Qed.

(** C7. [validateLocalUser(e, p)] is rejected with [Unauthorized] when no
    user has email [e], when that user has no password (null or empty: an
    OAuth-only account), or when [p] fails bcrypt's comparison with the
    stored hash; otherwise it resolves to [{ id }] with the id of the user
    found.  It writes to no store. *)
Theorem validateLocalUser_spec (e p : string) (w : World) :
  snd (validateLocalUser e p w) = w /\
  (findOneByEmail e (users w) = None ->
   fst (validateLocalUser e p w)
   = Rejected (UnauthorizedException "존재하지 않는 유저 정보입니다.")) /\
  (forall user,
     findOneByEmail e (users w) = Some user ->
     (truthy (user_password user) = false ->
      fst (validateLocalUser e p w)
      = Rejected (UnauthorizedException "존재하지 않는 유저 정보입니다.")) /\
     (forall h,
        user_password user = Some h -> h <> "" ->
        (bcrypt_compare p h = false ->
         fst (validateLocalUser e p w)
         = Rejected (UnauthorizedException "비밀번호를 확인해주세요.")) /\
        (bcrypt_compare p h = true ->
         fst (validateLocalUser e p w)
         = Resolved (IdResponse.mk (user_id user))))) /\
  (forall x, fst (validateLocalUser e p w) = Rejected x ->
             is_Unauthorized x = true).
Proof.
  rewrite validateLocalUser_run. cbn [fst snd]. split; [done|].
  split; [by intros ->|]. split.
  - intros user ->. split.
    + destruct (user_password user) as [h|]; [|done]. cbn.
      destruct (String.eqb h ""); [done|]. by cbn.
    + intros h -> Hh. apply String.eqb_neq in Hh. rewrite Hh.
      split; by intros ->.
  - intros x. destruct (findOneByEmail e (users w)) as [user|];
      [|intros H; by inversion H].
    destruct (user_password user) as [h|]; [|intros H; by inversion H].
    destruct (String.eqb h ""); [intros H; by inversion H|].
    destruct (bcrypt_compare p h); intros H; by inversion H.
Qed.

End IdentityClaims.

Lemma validateOAuthUser_run (dto : CreateUserRequestDto) (w : World) :
  validateOAuthUser dto w
  = match findOneByEmail (create_email dto) (users w) with
    | Some user => (Resolved user, w)
    | None =>
        let u := mkUser (fresh_id (users w)) (create_email dto) None in
        (Resolved u, set_users (users w ++ [u]) w)
    end.
Proof.
  unfold validateOAuthUser. run.
  by destruct (findOneByEmail (create_email dto) (users w)).
Qed.

(** C8. [validateOAuthUser] returns the identity that already has the dto's
    email when there is one, and leaves the world as it was; otherwise it
    creates an identity with a fresh id, that email and no password, and
    returns it.  A second call with the same email returns the same identity
    and creates nothing: the table grows by one row at most. *)
Theorem validateOAuthUser_idempotent
    (dto dto' : CreateUserRequestDto) (w : World) :
  create_email dto' = create_email dto ->
  exists u1 w1,
    validateOAuthUser dto w = (Resolved u1, w1) /\
    validateOAuthUser dto' w1 = (Resolved u1, w1) /\
    match findOneByEmail (create_email dto) (users w) with
    | Some user => u1 = user /\ w1 = w
    | None =>
        u1 = mkUser (fresh_id (users w)) (create_email dto) None /\
        users w1 = users w ++ [u1] /\
        redis w1 = redis w /\
        (forall x, In x (users w) -> user_id x <> user_id u1)
    end /\
    (length (users w1) <= S (length (users w)))%nat.
Proof.
  intros Hmail. rewrite validateOAuthUser_run.
  destruct (findOneByEmail (create_email dto) (users w)) as [user|] eqn:Hfind.
  - exists user, w. rewrite validateOAuthUser_run, Hmail, Hfind.
    repeat split; lia.
  - set (u1 := mkUser (fresh_id (users w)) (create_email dto) None).
    exists u1, (set_users (users w ++ [u1]) w). cbn zeta.
    rewrite validateOAuthUser_run, Hmail. cbn [users set_users].
    rewrite (findOneByEmail_app_new _ _ u1 Hfind eq_refl).
    repeat split.
    + intros x Hin Heq. apply fresh_id_above in Hin. cbn in Heq. lia.
    + rewrite length_app. cbn. lia.
Qed.

(** ** The service run on the concrete platform *)

Lemma demo_argon2_exact : @argon2_exact Demo.platform.
Proof.
  intros plain salt t.
  exists (String.eqb ("$argon2id$" +:+ plain) ("$argon2id$" +:+ t)).
  split; [reflexivity|].
  rewrite String.eqb_eq. split.
  - intros H. by apply (inj (String.app "$argon2id$")) in H.
  - by intros ->.
Qed.

Lemma demo_argon2_rejects_empty : @argon2_rejects_empty Demo.platform.
Proof. intros t. discriminate. Qed.

(** C1, the claim as stated fails.  A token signed for the same payload in
    the same second is the same string: when [refreshToken(42)] runs in the
    second in which [login(42)] issued [oldRaw], the pair it returns carries
    [oldRaw] again and [validateRefreshToken(42, oldRaw)] still resolves. *)
Lemma refreshToken_same_second_keeps_old_token :
  let w := snd (login (P := Demo.platform) 42 Demo.world0) in
  let oldRaw := "jwt.refresh.42.1700000000" in
  @argon2_exact Demo.platform /\
  validateRefreshToken (P := Demo.platform) 42 oldRaw w
  = (Resolved (IdResponse.mk 42), w) /\
  exists w',
    refreshToken (P := Demo.platform) 42 w
    = (Resolved (TokenResponse.mk "jwt.access.42.1700000000" oldRaw), w') /\
    validateRefreshToken (P := Demo.platform) 42 oldRaw w'
    = (Resolved (IdResponse.mk 42), w') /\
    fst (validateRefreshToken (P := Demo.platform) 42 oldRaw w')
    <> Rejected (UnauthorizedException "Invalid Refresh Token").
Proof.
  split; [exact demo_argon2_exact|].
  split; [by vm_compute|].
  eexists. split; [by vm_compute|]. split; [by vm_compute|].
  vm_compute. discriminate.
Qed.

Lemma refreshToken_rotation_witness :
  let w := elapse 60 (snd (login (P := Demo.platform) 42 Demo.world0)) in
  let r :=
    TokenResponse.mk "jwt.access.42.1700000060" "jwt.refresh.42.1700000060" in
  let w' := snd (refreshToken (P := Demo.platform) 42 w) in
  refreshToken (P := Demo.platform) 42 w = (Resolved r, w') /\
  validateRefreshToken (P := Demo.platform) 42 "jwt.refresh.42.1700000060" w'
  = (Resolved (IdResponse.mk 42), w') /\
  validateRefreshToken (P := Demo.platform) 42 "jwt.refresh.42.1700000000"
    (elapse 0 w')
  = (Rejected (UnauthorizedException "Invalid Refresh Token"), elapse 0 w').
Proof.
  intros w r w'.
  assert (refreshToken (P := Demo.platform) 42 w = (Resolved r, w')) as Hrun
    by (vm_compute; reflexivity).
  destruct (refreshToken_rotation (P := Demo.platform) 42
              "jwt.refresh.42.1700000000" w w' r 0
              demo_argon2_exact demo_argon2_rejects_empty Hrun)
    as (Hnew & _ & Hold).
  split; [exact Hrun|]. split; [exact Hnew|].
  apply Hold. vm_compute. discriminate.
Defined.

(** C3, the claim as stated fails.  The slot of user 42 holds a string that
    is no encoded digest, put there by [updateHashedRefreshToken]: a value
    is stored, and [validateRefreshToken] is rejected with the verifier's
    [TypeError], which is neither [Unauthorized] nor [{ id: 42 }]. *)
Lemma validateRefreshToken_rejects_with_verifier_error :
  let w := snd (updateHashedRefreshToken (P := Demo.platform) 42 "not-a-hash"
                  Demo.world0) in
  storedHash 42 w = Some "not-a-hash" /\
  fst (validateRefreshToken (P := Demo.platform) 42 "any-token" w)
  = Rejected (TypeError "pchstr must contain a $ as first char") /\
  is_Unauthorized (TypeError "pchstr must contain a $ as first char") = false.
Proof. split; [by vm_compute|]. split; by vm_compute. Qed.

Lemma validateRefreshToken_outcomes_witness :
  let w := snd (login (P := Demo.platform) 42 Demo.world0) in
  let w0 := snd (updateHashedRefreshToken (P := Demo.platform) 42 ""
                   Demo.world0) in
  fst (validateRefreshToken (P := Demo.platform) 42 "forged" w)
  = Rejected (UnauthorizedException "Invalid Refresh Token") /\
  fst (validateRefreshToken (P := Demo.platform) 42
         "jwt.refresh.42.1700000000" w)
  = Resolved (IdResponse.mk 42) /\
  fst (validateRefreshToken (P := Demo.platform) 42 "forged" w0)
  = Rejected (UnauthorizedException "Invalid Refresh Token") /\
  fst (validateRefreshToken (P := Demo.platform) 7 "forged" w)
  = Rejected (UnauthorizedException "Invalid Refresh Token").
Proof.
  intros w w0.
  destruct (validateRefreshToken_outcomes (P := Demo.platform) 42 "forged" w)
    as (_ & _ & Hforged & _).
  destruct (validateRefreshToken_outcomes (P := Demo.platform) 42
              "jwt.refresh.42.1700000000" w) as (_ & _ & Hgenuine & _).
  destruct (validateRefreshToken_outcomes (P := Demo.platform) 42 "forged" w0)
    as (_ & Hempty & _).
  destruct (validateRefreshToken_outcomes (P := Demo.platform) 7 "forged" w)
    as (Hnone & _).
  split; [|split; [|split]].
  - destruct (Hforged "$argon2id$jwt.refresh.42.1700000000"
                ltac:(by vm_compute) ltac:(discriminate)) as (Hno & _).
    apply Hno. by vm_compute.
  - destruct (Hgenuine "$argon2id$jwt.refresh.42.1700000000"
                ltac:(by vm_compute) ltac:(discriminate)) as (_ & Hyes & _).
    apply Hyes. by vm_compute.
  - apply Hempty. by vm_compute.
  - apply Hnone. by vm_compute.
Defined.

(** C9, the claim as stated fails for [updateHashedRefreshToken].  Handed the
    raw refresh token that [login(42)] issues, it writes that very string
    under the key of user 42: the stored value is the raw token and no
    digest of anything. *)
Lemma updateHashedRefreshToken_stores_raw_token :
  let raw := "jwt.refresh.42.1700000000" in
  let w := snd (updateHashedRefreshToken (P := Demo.platform) 42 raw
                  Demo.world0) in
  fst (login (P := Demo.platform) 42 Demo.world0)
  = Resolved (LoginResponse.mk 42 "jwt.access.42.1700000000" raw) /\
  updateHashedRefreshToken (P := Demo.platform) 42 raw Demo.world0
  = (Resolved tt, w) /\
  w.(redis) !! "userId:42:refreshToken"
  = Some (mkEntry raw (1700000000 + 604800)) /\
  (forall plain salt, @argon2_hash Demo.platform plain salt <> raw).
Proof.
  split; [by vm_compute|]. split; [by vm_compute|]. split; [by vm_compute|].
  intros plain salt. cbn. unfold Demo.argon2_hash. discriminate.
Qed.

Lemma other_users_slot_unchanged_witness :
  let w := snd (login (P := Demo.platform) 2 Demo.world0) in
  (1 <> 2) /\
  slot 2 (snd (login (P := Demo.platform) 1 w)) = slot 2 w /\
  slot 2 (snd (logout 1 w)) = slot 2 w.
Proof.
  intros w.
  assert (1 <> 2) as Hne by lia.
  destruct (other_users_slot_unchanged (P := Demo.platform) 1 2 w "" "" Hne)
    as (_ & Hlogin & Hlogout & _).
  split; [exact Hne|]. split; [exact Hlogin|exact Hlogout].
Defined.

Lemma updatePassword_guards_witness :
  updatePassword (P := Demo.platform) 1
    (mkUpdatePassword "guess" "new-pass" "new-pass") Demo.world0
  = (Rejected (UnauthorizedException "현재 비밀번호가 올바르지 않습니다."),
     Demo.world0) /\
  updatePassword (P := Demo.platform) 1
    (mkUpdatePassword "old-pass" "a" "b") Demo.world0
  = (Rejected (BadRequestException "새 비밀번호가 서로 일치하지 않습니다."),
     Demo.world0) /\
  updatePassword (P := Demo.platform) 2
    (mkUpdatePassword "old-pass" "a" "a") Demo.world0
  = (Rejected (UnauthorizedException "비밀번호가 없는 계정입니다."),
     Demo.world0) /\
  updatePassword (P := Demo.platform) 3
    (mkUpdatePassword "old-pass" "a" "a") Demo.world0
  = (Rejected (UnauthorizedException "존재하지 않는 유저입니다."),
     Demo.world0).
Proof.
  split; [|split; [|split]].
  - destruct (updatePassword_guards (P := Demo.platform) 1
                (mkUpdatePassword "guess" "new-pass" "new-pass") Demo.world0)
      as (_ & Hfound & _).
    destruct (Hfound Demo.alice eq_refl) as (_ & Hhash).
    destruct (Hhash "$2b$10$old-pass" eq_refl ltac:(discriminate))
      as (Hwrong & _).
    exact (Hwrong eq_refl).
  - destruct (updatePassword_guards (P := Demo.platform) 1
                (mkUpdatePassword "old-pass" "a" "b") Demo.world0)
      as (_ & Hfound & _).
    destruct (Hfound Demo.alice eq_refl) as (_ & Hhash).
    destruct (Hhash "$2b$10$old-pass" eq_refl ltac:(discriminate))
      as (_ & Hmismatch).
    exact (Hmismatch eq_refl ltac:(discriminate)).
  - destruct (updatePassword_guards (P := Demo.platform) 2
                (mkUpdatePassword "old-pass" "a" "a") Demo.world0)
      as (_ & Hfound & _).
    destruct (Hfound Demo.oauth_bob eq_refl) as (Hnone & _).
    exact (Hnone eq_refl).
  - destruct (updatePassword_guards (P := Demo.platform) 3
                (mkUpdatePassword "old-pass" "a" "a") Demo.world0)
      as (Habsent & _).
    exact (Habsent eq_refl).
Defined.

Lemma validateLocalUser_spec_witness :
  validateLocalUser (P := Demo.platform) "alice@example.com" "old-pass"
    Demo.world0
  = (Resolved (IdResponse.mk 1), Demo.world0) /\
  fst (validateLocalUser (P := Demo.platform) "alice@example.com" "guess"
         Demo.world0)
  = Rejected (UnauthorizedException "비밀번호를 확인해주세요.") /\
  fst (validateLocalUser (P := Demo.platform) "bob@example.com" "guess"
         Demo.world0)
  = Rejected (UnauthorizedException "존재하지 않는 유저 정보입니다.") /\
  fst (validateLocalUser (P := Demo.platform) "nobody@example.com" "guess"
         Demo.world0)
  = Rejected (UnauthorizedException "존재하지 않는 유저 정보입니다.").
Proof.
  split; [|split; [|split]].
  - destruct (validateLocalUser_spec (P := Demo.platform)
                "alice@example.com" "old-pass" Demo.world0)
      as (Hworld & _ & Hfound & _).
    destruct (Hfound Demo.alice eq_refl) as (_ & Hhash).
    destruct (Hhash "$2b$10$old-pass" eq_refl ltac:(discriminate))
      as (_ & Hright).
    apply injective_projections; [exact (Hright eq_refl)|exact Hworld].
  - destruct (validateLocalUser_spec (P := Demo.platform)
                "alice@example.com" "guess" Demo.world0)
      as (_ & _ & Hfound & _).
    destruct (Hfound Demo.alice eq_refl) as (_ & Hhash).
    destruct (Hhash "$2b$10$old-pass" eq_refl ltac:(discriminate))
      as (Hwrong & _).
    exact (Hwrong eq_refl).
  - destruct (validateLocalUser_spec (P := Demo.platform)
                "bob@example.com" "guess" Demo.world0)
      as (_ & _ & Hfound & _).
    destruct (Hfound Demo.oauth_bob eq_refl) as (Hnone & _).
    exact (Hnone eq_refl).
  - destruct (validateLocalUser_spec (P := Demo.platform)
                "nobody@example.com" "guess" Demo.world0)
      as (_ & Habsent & _).
    exact (Habsent eq_refl).
Defined.

Lemma validateOAuthUser_idempotent_witness :
  exists u1 w1,
    validateOAuthUser (mkCreateUser "carol@example.com") Demo.world0
    = (Resolved u1, w1) /\
    validateOAuthUser (mkCreateUser "carol@example.com") w1
    = (Resolved u1, w1) /\
    u1 = mkUser 3 "carol@example.com" None /\
    (length (users w1) <= 3)%nat.
Proof.
  destruct (validateOAuthUser_idempotent
              (mkCreateUser "carol@example.com")
              (mkCreateUser "carol@example.com") Demo.world0 eq_refl)
    as (u1 & w1 & Hfirst & Hsecond & Hcase & Hlen).
  exists u1, w1.
  split; [exact Hfirst|]. split; [exact Hsecond|].
  split; [|exact Hlen].
  vm_compute in Hcase. destruct Hcase as (Hu & _). exact Hu.
Defined.

(** C2, the code at a failing input.  Alice changes her password from
    "old-pass" to "new-pass" and every check passes.  The row saved carries
    the string "new-pass" itself in the password column, which is not what
    the password hasher gives for it, and [validateLocalUser] with the new
    password is rejected afterwards. *)
Theorem updatePassword_stores_raw_password :
  let dto := mkUpdatePassword "old-pass" "new-pass" "new-pass" in
  exists w',
    updatePassword (P := Demo.platform) 1 dto Demo.world0 = (Resolved tt, w') /\
    findOneById 1 (users w')
    = Some (mkUser 1 "alice@example.com" (Some "new-pass")) /\
    (forall salt, @bcrypt_hash Demo.platform "new-pass" salt <> "new-pass") /\
    validateLocalUser (P := Demo.platform) "alice@example.com" "new-pass" w'
    = (Rejected (UnauthorizedException "비밀번호를 확인해주세요."), w').
Proof.
  eexists. split; [by vm_compute|]. split; [by vm_compute|].
  split; [intros salt; vm_compute; discriminate|]. by vm_compute.
Qed.

(** ** Sessions over time *)

Section Sessions.
Context {P : Platform}.

Lemma login_resolved (u : Z) (w w' : World) (r : LoginResponse.t) :
  login u w = (Resolved r, w') ->
  exists s,
    REDIS_REFRESH_EXPIRE_SECONDS = Some s /\ 0 < s /\
    r = LoginResponse.mk u (issuedAccessToken u w) (issuedRefreshToken u w) /\
    w' = set_redis
           (<[getRefreshTokenKey u :=
                mkEntry (issuedDigest u w) (clock w + s)]> (redis w))
           (after_issuing w).
Proof.
  rewrite login_run.
  destruct (redis_setex_cases (getRefreshTokenKey u)
              REDIS_REFRESH_EXPIRE_SECONDS (issuedDigest u w)
              (after_issuing w)) as [(s & Hs & Hpos & ->)|(m & ->)];
    intros H; inversion H; subst. eauto.
Qed.

(** What [validateRefreshToken] answers, after any lapse of time, in a world
    whose slot for [u] holds a given entry. *)
Lemma validate_against_entry (u : Z) (t digest : string) (w : World)
    (expire d : Z) :
  redis w !! getRefreshTokenKey u = Some (mkEntry digest expire) ->
  fst (validateRefreshToken u t (elapse d w))
  = if clock w + d <? expire
    then checkDigest u digest t
    else Rejected (UnauthorizedException "Invalid Refresh Token").
Proof.
  intros Hslot. rewrite validateRefreshToken_run. cbn. rewrite Hslot. cbn.
  by destruct (clock w + d <? expire).
Qed.

Lemma ltb_shift (c d s : Z) : (c + d <? c + s) = (d <? s).
Proof.
  destruct (d <? s) eqn:Hd.
  - apply Z.ltb_lt in Hd. apply Z.ltb_lt. lia.
  - apply Z.ltb_ge in Hd. apply Z.ltb_ge. lia.
Qed.

(** X1. The session [login(u)] opens.  The refresh token it returns
    validates for [u] until the configured number of seconds has passed and
    is rejected with [Unauthorized] from then on; every other token is
    rejected for [u] from the moment of the login, whatever was valid before:
    one user has one session.  The verifier is one that accepts a digest
    exactly for the secret it was made from. *)
Theorem login_session
    (u : Z) (t : string) (w w' : World) (r : LoginResponse.t) (s d : Z) :
  argon2_exact -> argon2_rejects_empty ->
  REDIS_REFRESH_EXPIRE_SECONDS = Some s ->
  login u w = (Resolved r, w') ->
  LoginResponse.id r = u /\
  fst (validateRefreshToken u (LoginResponse.refreshToken r) (elapse d w'))
  = (if d <? s
     then Resolved (IdResponse.mk u)
     else Rejected (UnauthorizedException "Invalid Refresh Token")) /\
  (t <> LoginResponse.refreshToken r ->
   fst (validateRefreshToken u t (elapse d w'))
   = Rejected (UnauthorizedException "Invalid Refresh Token")).
Proof.
  intros Hexact Hempty Hs Hrun.
  apply login_resolved in Hrun as (s' & Hs' & Hpos & -> & ->).
  assert (s' = s) as -> by congruence.
  cbn [LoginResponse.id LoginResponse.refreshToken].
  split; [done|].
  split.
  - rewrite (validate_against_entry u _ (issuedDigest u w) _ (clock w + s))
      by (cbn; apply lookup_insert_eq).
    cbn [clock set_redis after_issuing next_entropy].
    rewrite ltb_shift. unfold issuedDigest.
    by rewrite checkDigest_own.
  - intros Hother.
    rewrite (validate_against_entry u _ (issuedDigest u w) _ (clock w + s))
      by (cbn; apply lookup_insert_eq).
    unfold issuedDigest. rewrite checkDigest_other by done.
    by destruct (_ <? _).
Qed.

(** X3. Store and read back.  Once [updateHashedRefreshToken(u, h)] has
    resolved, [getHashedRefreshToken(u)] returns [h] until the configured
    number of seconds has passed and [null] from then on.  While the record
    lives, [validateRefreshToken(u, t)] is rejected with [Unauthorized] when
    [h] is empty or the verifier answers no for [h] against [t], resolves
    when it answers yes, and is rejected with the verifier's own error when
    it throws on [h]; once the record has expired it is rejected with
    [Unauthorized]. *)
Theorem updateHashedRefreshToken_then_read
    (u : Z) (h t : string) (w w' : World) (s d : Z) :
  REDIS_REFRESH_EXPIRE_SECONDS = Some s ->
  updateHashedRefreshToken u h w = (Resolved tt, w') ->
  0 < s /\
  getHashedRefreshToken u (elapse d w')
  = (Resolved (if d <? s then Some h else None), elapse d w') /\
  fst (validateRefreshToken u t (elapse d w'))
  = (if d <? s
     then
       if String.eqb h ""
       then Rejected (UnauthorizedException "Invalid Refresh Token")
       else
         match argon2_verify h t with
         | Resolved true => Resolved (IdResponse.mk u)
         | Resolved false =>
             Rejected (UnauthorizedException "Invalid Refresh Token")
         | Rejected e => Rejected e
         end
     else Rejected (UnauthorizedException "Invalid Refresh Token")).
Proof.
  intros Hs Hrun. unfold updateHashedRefreshToken in Hrun.
  destruct (redis_setex_cases (getRefreshTokenKey u)
              REDIS_REFRESH_EXPIRE_SECONDS h w)
    as [(s' & Hs' & Hpos & Heq)|(m & Heq)]; rewrite Heq in Hrun;
    inversion Hrun; subst.
  assert (s' = s) as -> by congruence.
  split; [done|]. split.
  - rewrite getHashedRefreshToken_run. cbn. rewrite lookup_insert_eq. cbn.
    by rewrite ltb_shift.
  - rewrite (validate_against_entry u t h _ (clock w + s))
      by (cbn; apply lookup_insert_eq).
    cbn [clock set_redis]. by rewrite ltb_shift.
Qed.

(** X5. A rejected write ends no session.  When [login], [refreshToken] or
    [updateHashedRefreshToken] is rejected, [validateRefreshToken] answers
    for every user and token as it did before the call: the token that was
    valid stays valid. *)
Theorem rejected_write_keeps_session
    (u v : Z) (h t : string) (w : World) :
  (forall e w',
     login u w = (Rejected e, w') ->
     fst (validateRefreshToken v t w') = fst (validateRefreshToken v t w)) /\
  (forall e w',
     refreshToken u w = (Rejected e, w') ->
     fst (validateRefreshToken v t w') = fst (validateRefreshToken v t w)) /\
  (forall e w',
     updateHashedRefreshToken u h w = (Rejected e, w') ->
     fst (validateRefreshToken v t w') = fst (validateRefreshToken v t w)).
Proof.
  split; [|split]; intros e w'.
  - rewrite login_run.
    destruct (redis_setex_cases (getRefreshTokenKey u)
                REDIS_REFRESH_EXPIRE_SECONDS (issuedDigest u w)
                (after_issuing w)) as [(s & _ & _ & ->)|(m & ->)];
      intros H; inversion H; subst.
    by rewrite !validateRefreshToken_run.
  - rewrite refreshToken_run.
    destruct (redis_setex_cases (getRefreshTokenKey u)
                REDIS_REFRESH_EXPIRE_SECONDS (issuedDigest u w)
                (after_issuing w)) as [(s & _ & _ & ->)|(m & ->)];
      intros H; inversion H; subst.
    by rewrite !validateRefreshToken_run.
  - unfold updateHashedRefreshToken.
    destruct (redis_setex_cases (getRefreshTokenKey u)
                REDIS_REFRESH_EXPIRE_SECONDS h w)
      as [(s & _ & _ & ->)|(m & ->)];
      intros H; inversion H; subst.
    done.
Qed.

End Sessions.

(** ** The two stores are apart *)

Lemma findOneById_save_other (u : User) (us : list User) (i : Z) :
  i <> user_id u -> findOneById i (save u us) = findOneById i us.
Proof.
  intros Hi. unfold findOneById. induction us as [|x rest IH]; cbn.
  - destruct (user_id u =? i) eqn:Hu; [|done].
    apply Z.eqb_eq in Hu. done.
  - destruct (user_id x =? user_id u) eqn:Hx; cbn.
    + apply Z.eqb_eq in Hx.
      assert ((user_id u =? i) = false) as -> by (apply Z.eqb_neq; lia).
      assert ((user_id x =? i) = false) as -> by (apply Z.eqb_neq; lia).
      done.
    + by rewrite IH.
Qed.

Lemma save_columns (u x : User) (us : list User) :
  findOneById (user_id u) us = Some x ->
  user_email u = user_email x ->
  map user_id (save u us) = map user_id us /\
  map user_email (save u us) = map user_email us.
Proof.
  unfold findOneById. intros Hfind Hmail.
  induction us as [|y rest IH]; cbn in *; [done|].
  destruct (user_id y =? user_id u) eqn:Hy; cbn.
  - inversion Hfind; subst. apply Z.eqb_eq in Hy.
    by rewrite Hy, Hmail.
  - destruct (IH Hfind) as [-> ->]. done.
Qed.

Section Apart.
Context {P : Platform}.

Lemma updatePassword_store (u : Z) (dto : UpdatePasswordRequestDto)
    (w : World) :
  redis (snd (updatePassword u dto w)) = redis w /\
  clock (snd (updatePassword u dto w)) = clock w.
Proof.
  rewrite updatePassword_run.
  destruct (findOneById u (users w)) as [user|]; [|done].
  destruct (user_password user) as [h|]; [|done].
  destruct (String.eqb h ""); [done|].
  destruct (bcrypt_compare _ h); [|done].
  by destruct (String.eqb _ _).
Qed.

(** X4. Changing a password ends no session.  [updatePassword],
    [validateLocalUser] and [validateOAuthUser] never touch the refresh-token
    store: whatever they answer, [validateRefreshToken] answers afterwards,
    for every user and token, as it did before.  A refresh token issued
    before a password change stays valid after it. *)
Theorem identity_operations_keep_sessions
    (u v : Z) (dto : UpdatePasswordRequestDto) (e p t : string)
    (cdto : CreateUserRequestDto) (w : World) :
  fst (validateRefreshToken v t (snd (updatePassword u dto w)))
  = fst (validateRefreshToken v t w) /\
  fst (validateRefreshToken v t (snd (validateLocalUser e p w)))
  = fst (validateRefreshToken v t w) /\
  fst (validateRefreshToken v t (snd (validateOAuthUser cdto w)))
  = fst (validateRefreshToken v t w).
Proof.
  rewrite !validateRefreshToken_run. cbn [fst].
  destruct (updatePassword_store u dto w) as [-> ->].
  rewrite validateLocalUser_run, validateOAuthUser_run. cbn [snd].
  split; [done|]. split; [done|].
  by destruct (findOneByEmail (create_email cdto) (users w)).
Qed.

(** X6. The session operations never touch the user table.  After [login],
    [logout], [refreshToken], [updateHashedRefreshToken], [generateTokens],
    [validateRefreshToken] or [getHashedRefreshToken], resolved or rejected,
    the table is as it was, and [validateLocalUser] answers as before. *)
Theorem session_operations_keep_users
    (u : Z) (h t e p : string) (w : World) :
  users (snd (login u w)) = users w /\
  users (snd (logout u w)) = users w /\
  users (snd (refreshToken u w)) = users w /\
  users (snd (updateHashedRefreshToken u h w)) = users w /\
  users (snd (generateTokens u w)) = users w /\
  users (snd (validateRefreshToken u t w)) = users w /\
  users (snd (getHashedRefreshToken u w)) = users w /\
  fst (validateLocalUser e p (snd (login u w)))
  = fst (validateLocalUser e p w) /\
  fst (validateLocalUser e p (snd (logout u w)))
  = fst (validateLocalUser e p w) /\
  fst (validateLocalUser e p (snd (refreshToken u w)))
  = fst (validateLocalUser e p w).
Proof.
  assert (forall key value w0,
            users (snd (redis_setex key REDIS_REFRESH_EXPIRE_SECONDS
                          value w0)) = users w0) as Hsetex.
  { intros key value w0. unfold redis_setex.
    destruct REDIS_REFRESH_EXPIRE_SECONDS as [s|]; [|done].
    by destruct (0 <? s). }
  assert (users (snd (login u w)) = users w) as Hlogin
    by (by rewrite login_world, Hsetex).
  assert (users (snd (refreshToken u w)) = users w) as Hrefresh
    by (by rewrite refreshToken_world, Hsetex).
  rewrite !validateLocalUser_run, validateRefreshToken_run. cbn [fst snd].
  rewrite Hlogin, Hrefresh. repeat split; try done.
  apply Hsetex.
Qed.

(** X7. [updatePassword] resolves exactly when all its checks pass: a user
    with that id exists, the user has a non-empty password hash, bcrypt
    accepts [currentPassword] against it, and [newPassword] equals
    [newPasswordConfirm]. *)
Theorem updatePassword_resolves_iff
    (u : Z) (dto : UpdatePasswordRequestDto) (w : World) :
  fst (updatePassword u dto w) = Resolved tt
  <-> exists user h,
        findOneById u (users w) = Some user /\
        user_password user = Some h /\
        h <> "" /\
        bcrypt_compare (currentPassword dto) h = true /\
        newPassword dto = newPasswordConfirm dto.
Proof.
  rewrite updatePassword_run.
  destruct (findOneById u (users w)) as [user|];
    [|split; [done|intros (? & ? & ? & _); done]].
  destruct (user_password user) as [h|] eqn:Hpw;
    [|split; [done|intros (? & ? & [= <-] & Hx & _); congruence]].
  destruct (String.eqb_spec h "") as [->|Hh].
  { split; [done|]. intros (? & ? & [= <-] & Hx & Hy & _). congruence. }
  destruct (bcrypt_compare (currentPassword dto) h) eqn:Hcmp.
  - destruct (String.eqb_spec (newPassword dto) (newPasswordConfirm dto))
      as [Heq|Hneq].
    + split; [|done]. intros _. by exists user, h.
    + split; [done|]. intros (? & ? & _ & _ & _ & _ & Heq). done.
  - split; [done|].
    intros (? & h' & [= <-] & Hx & _ & Hy & _). congruence.
Qed.

(** X8. [validateLocalUser(e, p)] resolves only to the id of a user of the
    table that has email [e] and a non-empty password hash which bcrypt
    accepts for [p]; the world is as it was. *)
Theorem validateLocalUser_resolved
    (e p : string) (w w' : World) (r : IdResponse.t) :
  validateLocalUser e p w = (Resolved r, w') ->
  w' = w /\
  exists user h,
    In user (users w) /\
    user_email user = e /\
    user_id user = IdResponse.id r /\
    user_password user = Some h /\ h <> "" /\
    bcrypt_compare p h = true.
Proof.
  rewrite validateLocalUser_run.
  destruct (findOneByEmail e (users w)) as [user|] eqn:Hfind;
    [|intros H; by inversion H].
  destruct (user_password user) as [h|] eqn:Hpw; [|intros H; by inversion H].
  destruct (String.eqb_spec h "") as [->|Hh]; [intros H; by inversion H|].
  destruct (bcrypt_compare p h) eqn:Hcmp; intros H; inversion H; subst.
  split; [done|]. exists user, h.
  pose proof (findOneByEmail_email _ _ _ Hfind) as Hmail.
  unfold findOneByEmail in Hfind. apply find_some in Hfind as [Hin _].
  done.
Qed.

(** X9. A password change rewrites one row.  When [updatePassword(u, dto)]
    resolves, the row of [u] keeps its id and email; the rows found under
    every other id are as they were, and the table has the same ids and
    emails in the same order. *)
Theorem updatePassword_rewrites_one_row
    (u : Z) (dto : UpdatePasswordRequestDto) (w w' : World) :
  updatePassword u dto w = (Resolved tt, w') ->
  (exists user user',
     findOneById u (users w) = Some user /\
     findOneById u (users w') = Some user' /\
     user_id user' = u /\
     user_email user' = user_email user) /\
  (forall v, v <> u -> findOneById v (users w') = findOneById v (users w)) /\
  map user_id (users w') = map user_id (users w) /\
  map user_email (users w') = map user_email (users w).
Proof.
  intros Hrun.
  destruct (updatePassword_resolved u dto w w' Hrun)
    as (user & Hfind & Hnew & _).
  split; [by eexists user, _|].
  revert Hrun. rewrite updatePassword_run, Hfind.
  destruct (user_password user) as [h|]; [|done].
  destruct (String.eqb h ""); [done|].
  destruct (bcrypt_compare _ h); [|done].
  destruct (String.eqb _ _); [|done].
  intros H. inversion H; subst. cbn [users set_users].
  pose proof (findOneById_id _ _ _ Hfind) as Hid.
  split.
  - intros v Hv. apply findOneById_save_other. cbn. lia.
  - apply (save_columns _ user); [by cbn; rewrite Hid|done].
Qed.

End Apart.

(** ** GenreRepository *)

Section GenreClaims.
Import Genre.
Context {R : Repository}.

(** X10. Failures of the two upserts.  [upsertGenre] and [upsertGenreList]
    return exactly when the repository's upsert returns, and leave the table
    as that call left it; whatever the repository throws, they throw an
    [InternalServerErrorException] with their own fixed message, never the
    driver's error.  [findByContentType] catches nothing: it throws the
    driver's error as it is. *)
Theorem upsert_failures_are_internal_errors
    (externalGenreId name emoji : string) (genres : list TMDBGenre)
    (contentType : ContentType) (t : Table) :
  let paths := ["externalGenreId"; "contentType"] in
  let one := typeorm_upsert
               [mkValues externalGenreId name emoji contentType] paths t in
  let many := typeorm_upsert (genreEntities genres contentType) paths t in
  (snd (upsertGenre externalGenreId name emoji contentType t) = snd one /\
   (fst (upsertGenre externalGenreId name emoji contentType t) = Returned tt
    <-> exists x, fst one = Returned x) /\
   (forall e,
      fst (upsertGenre externalGenreId name emoji contentType t) = Thrown e ->
      e = InternalServerErrorException "장르 저장 중 오류가 발생했습니다.")) /\
  (snd (upsertGenreList genres contentType t) = snd many /\
   (fst (upsertGenreList genres contentType t) = Returned tt
    <-> exists x, fst many = Returned x) /\
   (forall e,
      fst (upsertGenreList genres contentType t) = Thrown e ->
      e = InternalServerErrorException
            "여러 장르 저장 중 오류가 발생했습니다.")) /\
  (forall e,
     fst (findByContentType contentType t) = Thrown e ->
     exists d, e = Uncaught d /\
               fst (typeorm_find contentType "ASC" t) = Thrown d).
Proof.
  intros paths one many. subst one many paths.
  unfold upsertGenre, upsertGenreList, findByContentType.
  split; [|split].
  - destruct (typeorm_upsert [_] _ t) as [[x|d] t']; cbn.
    + split; [done|]. split; [split; eauto|done].
    + split; [done|]. split; [split; [done|intros [x Hx]; done]|].
      intros e H. by inversion H.
  - destruct (typeorm_upsert (genreEntities _ _) _ t) as [[x|d] t']; cbn.
    + split; [done|]. split; [split; eauto|done].
    + split; [done|]. split; [split; [done|intros [x Hx]; done]|].
      intros e H. by inversion H.
  - intros e. destruct (typeorm_find contentType "ASC" t) as [[gs|d] t'];
      cbn; intros H; inversion H; subst. by exists d.
Qed.

(** X11. A list of one genre.  [upsertGenreList([genre], c)] hands the
    repository what [upsertGenre(genre.id.toString(), genre.name,
    mapGenreToEmoji(genre.name), c)] hands it: the two calls leave the same
    table, and one returns exactly when the other does. *)
Theorem upsertGenreList_singleton
    (genre : TMDBGenre) (contentType : ContentType) (t : Table) :
  snd (upsertGenreList [genre] contentType t)
  = snd (upsertGenre (pretty (tmdb_id genre)) (tmdb_name genre)
           (mapGenreToEmoji (tmdb_name genre)) contentType t) /\
  (fst (upsertGenreList [genre] contentType t) = Returned tt
   <-> fst (upsertGenre (pretty (tmdb_id genre)) (tmdb_name genre)
              (mapGenreToEmoji (tmdb_name genre)) contentType t)
       = Returned tt).
Proof.
  unfold upsertGenreList, upsertGenre, genreEntities. cbn [map].
  by destruct (typeorm_upsert [_] _ t) as [[x|d] t'].
Qed.

(** X12. The entities [upsertGenreList] builds.  There is one per genre, in
    the order of the list; each carries the decimal string of the genre's
    id, its name, the emoji mapped from that name and the one content type
    of the call.  Genres with distinct ids get distinct conflict targets
    [(externalGenreId, contentType)], so no two entities of one call
    collide. *)
Theorem genreEntities_distinct_targets
    (genres : list TMDBGenre) (contentType : ContentType) :
  length (genreEntities genres contentType) = length genres /\
  (forall i genre,
     genres !! i = Some genre ->
     genreEntities genres contentType !! i
     = Some (mkValues (pretty (tmdb_id genre)) (tmdb_name genre)
               (mapGenreToEmoji (tmdb_name genre)) contentType)) /\
  (NoDup (map tmdb_id genres) ->
   NoDup (map conflictKey (genreEntities genres contentType))).
Proof.
  unfold genreEntities. split; [apply length_map|]. split.
  - intros i genre Hi.
    change (map ?f genres) with (f <$> genres).
    by rewrite list_lookup_fmap, Hi.
  - change (map ?f ?l) with (f <$> l).
    induction genres as [|g rest IH]; cbn; [constructor|].
    rewrite !NoDup_cons. intros [Hnotin Hrest]. split; [|by apply IH].
    intros Hin. apply Hnotin.
    apply list_elem_of_fmap in Hin as (v & Hv & Hin).
    apply list_elem_of_fmap in Hin as (g' & -> & Hin).
    apply list_elem_of_fmap. exists g'. split; [|done].
    unfold conflictKey in Hv. cbn in Hv. inversion Hv as [Hp].
    by apply (inj pretty) in Hp.
Qed.

End GenreClaims.

Lemma genreEntities_distinct_targets_witness :
  NoDup (map Genre.tmdb_id
           [Genre.mkTMDBGenre 28 "Action"; Genre.mkTMDBGenre 35 "Comedy"]) /\
  NoDup (map (Genre.conflictKey (R := Genre.demo))
           (Genre.genreEntities (R := Genre.demo)
              [Genre.mkTMDBGenre 28 "Action"; Genre.mkTMDBGenre 35 "Comedy"]
              Genre.MOVIE)).
Proof.
  assert (NoDup (map Genre.tmdb_id
                   [Genre.mkTMDBGenre 28 "Action";
                    Genre.mkTMDBGenre 35 "Comedy"])) as Hids.
  { apply (bool_decide_unpack _). by vm_compute. }
  split; [exact Hids|].
  apply (genreEntities_distinct_targets (R := Genre.demo)
           [Genre.mkTMDBGenre 28 "Action"; Genre.mkTMDBGenre 35 "Comedy"]
           Genre.MOVIE).
  exact Hids.
Defined.

(** ** DatabaseModule *)

(** X13. The options the factory builds.  It returns exactly when the
    configuration holds a value for each of the six [MYSQL_] keys; the
    options then carry those six values, type ["mysql"], and
    [autoLoadEntities], [dropSchema] and [logging] all true, whatever the
    configuration says. *)
Theorem useFactory_options (config : gmap string string) :
  ((exists options, Database.useFactory config = inr options)
   <-> Forall (fun key => is_Some (config !! key)) Database.requiredKeys) /\
  (forall options,
     Database.useFactory config = inr options ->
     Database.type options = "mysql" /\
     Database.autoLoadEntities options = true /\
     Database.dropSchema options = true /\
     Database.logging options = true /\
     config !! "MYSQL_HOST" = Some (Database.host options) /\
     config !! "MYSQL_PORT" = Some (Database.port options) /\
     config !! "MYSQL_USERNAME" = Some (Database.username options) /\
     config !! "MYSQL_DATABASE" = Some (Database.database options) /\
     config !! "MYSQL_PASSWORD" = Some (Database.password options) /\
     config !! "MYSQL_SYNCHRONIZE" = Some (Database.synchronize options)).
Proof.
  unfold Database.useFactory, Database.getOrThrow, Database.andThen,
    Database.requiredKeys.
  rewrite !Forall_cons, Forall_nil.
  destruct (config !! "MYSQL_HOST") as [v1|];
    [|split; [split; [intros [? ?]; done|intros ([? ?] & _); done]|done]].
  destruct (config !! "MYSQL_PORT") as [v2|];
    [|split; [split; [intros [? ?]; done|intros (_ & [? ?] & _); done]|done]].
  destruct (config !! "MYSQL_USERNAME") as [v3|];
    [|split; [split; [intros [? ?]; done
                     |intros (_ & _ & [? ?] & _); done]|done]].
  destruct (config !! "MYSQL_DATABASE") as [v4|];
    [|split; [split; [intros [? ?]; done
                     |intros (_ & _ & _ & [? ?] & _); done]|done]].
  destruct (config !! "MYSQL_PASSWORD") as [v5|];
    [|split; [split; [intros [? ?]; done
                     |intros (_ & _ & _ & _ & [? ?] & _); done]|done]].
  destruct (config !! "MYSQL_SYNCHRONIZE") as [v6|];
    [|split; [split; [intros [? ?]; done
                     |intros (_ & _ & _ & _ & _ & [? ?] & _); done]|done]].
  split.
  - split; [intros _; repeat split; eauto|eauto].
  - intros options H. inversion H; subst. cbn. done.
Qed.

(** X14. The key the factory fails on.  It throws exactly when one of the
    six keys has no value, and the error names the first such key in the
    order the options are written: host, port, username, database, password,
    synchronize. *)
Theorem useFactory_first_missing_key
    (config : gmap string string) (e : Database.ConfigError) :
  Database.useFactory config = inl e
  <-> exists key,
        find (Database.is_missing config) Database.requiredKeys = Some key /\
        e = Database.MissingKey key.
Proof.
  unfold Database.useFactory, Database.getOrThrow, Database.andThen,
    Database.requiredKeys, Database.is_missing. cbn [find].
  destruct (config !! "MYSQL_HOST") as [v1|];
    [|split; [intros [= <-]; eauto|intros (k & [= <-] & ->); done]].
  destruct (config !! "MYSQL_PORT") as [v2|];
    [|split; [intros [= <-]; eauto|intros (k & [= <-] & ->); done]].
  destruct (config !! "MYSQL_USERNAME") as [v3|];
    [|split; [intros [= <-]; eauto|intros (k & [= <-] & ->); done]].
  destruct (config !! "MYSQL_DATABASE") as [v4|];
    [|split; [intros [= <-]; eauto|intros (k & [= <-] & ->); done]].
  destruct (config !! "MYSQL_PASSWORD") as [v5|];
    [|split; [intros [= <-]; eauto|intros (k & [= <-] & ->); done]].
  destruct (config !! "MYSQL_SYNCHRONIZE") as [v6|];
    [|split; [intros [= <-]; eauto|intros (k & [= <-] & ->); done]].
  split; [done|]. intros (k & Hk & _). done.
Qed.

(** ** The added properties on the concrete platforms *)

Lemma login_session_witness :
  let r := LoginResponse.mk 42 "jwt.access.42.1700000000"
             "jwt.refresh.42.1700000000" in
  let w' := snd (login (P := Demo.platform) 42 Demo.world0) in
  login (P := Demo.platform) 42 Demo.world0 = (Resolved r, w') /\
  fst (validateRefreshToken (P := Demo.platform) 42
         "jwt.refresh.42.1700000000" (elapse 3600 w'))
  = Resolved (IdResponse.mk 42) /\
  fst (validateRefreshToken (P := Demo.platform) 42
         "jwt.refresh.42.1700000000" (elapse 604800 w'))
  = Rejected (UnauthorizedException "Invalid Refresh Token") /\
  fst (validateRefreshToken (P := Demo.platform) 42 "forged" (elapse 3600 w'))
  = Rejected (UnauthorizedException "Invalid Refresh Token").
Proof.
  intros r w'.
  assert (login (P := Demo.platform) 42 Demo.world0 = (Resolved r, w'))
    as Hrun by (vm_compute; reflexivity).
  split; [exact Hrun|].
  destruct (login_session (P := Demo.platform) 42 "forged" Demo.world0 w' r
              604800 3600 demo_argon2_exact demo_argon2_rejects_empty
              eq_refl Hrun) as (_ & Hlive & Hother).
  destruct (login_session (P := Demo.platform) 42 "forged" Demo.world0 w' r
              604800 604800 demo_argon2_exact demo_argon2_rejects_empty
              eq_refl Hrun) as (_ & Hdead & _).
  split; [exact Hlive|]. split; [exact Hdead|].
  apply Hother. vm_compute. discriminate.
Defined.

Lemma refreshToken_lifetime_witness :
  let r := TokenResponse.mk "jwt.access.42.1700000000"
             "jwt.refresh.42.1700000000" in
  let w' := snd (refreshToken (P := Demo.platform) 42 Demo.world0) in
  refreshToken (P := Demo.platform) 42 Demo.world0 = (Resolved r, w') /\
  fst (validateRefreshToken (P := Demo.platform) 42
         "jwt.refresh.42.1700000000" (elapse 604799 w'))
  = Resolved (IdResponse.mk 42) /\
  fst (validateRefreshToken (P := Demo.platform) 42
         "jwt.refresh.42.1700000000" (elapse 604800 w'))
  = Rejected (UnauthorizedException "Invalid Refresh Token").
Proof.
  intros r w'.
  assert (refreshToken (P := Demo.platform) 42 Demo.world0 = (Resolved r, w'))
    as Hrun by (vm_compute; reflexivity).
  split; [exact Hrun|]. split.
  - exact (refreshToken_lifetime (P := Demo.platform) 42 Demo.world0 w' r
             604800 604799 demo_argon2_exact demo_argon2_rejects_empty
             eq_refl Hrun).
  - exact (refreshToken_lifetime (P := Demo.platform) 42 Demo.world0 w' r
             604800 604800 demo_argon2_exact demo_argon2_rejects_empty
             eq_refl Hrun).
Defined.

Lemma updateHashedRefreshToken_then_read_witness :
  let w' := snd (updateHashedRefreshToken (P := Demo.platform) 7
                   "$argon2id$token" Demo.world0) in
  let w'' := snd (updateHashedRefreshToken (P := Demo.platform) 7
                    "not-a-hash" Demo.world0) in
  updateHashedRefreshToken (P := Demo.platform) 7 "$argon2id$token"
    Demo.world0 = (Resolved tt, w') /\
  getHashedRefreshToken 7 (elapse 60 w')
  = (Resolved (Some "$argon2id$token"), elapse 60 w') /\
  getHashedRefreshToken 7 (elapse 604800 w')
  = (Resolved None, elapse 604800 w') /\
  fst (validateRefreshToken (P := Demo.platform) 7 "token" (elapse 60 w'))
  = Resolved (IdResponse.mk 7) /\
  fst (validateRefreshToken (P := Demo.platform) 7 "token" (elapse 60 w''))
  = Rejected (TypeError "pchstr must contain a $ as first char").
Proof.
  intros w' w''.
  assert (updateHashedRefreshToken (P := Demo.platform) 7 "$argon2id$token"
            Demo.world0 = (Resolved tt, w')) as Hrun
    by (vm_compute; reflexivity).
  assert (updateHashedRefreshToken (P := Demo.platform) 7 "not-a-hash"
            Demo.world0 = (Resolved tt, w'')) as Hbad
    by (vm_compute; reflexivity).
  split; [exact Hrun|].
  destruct (updateHashedRefreshToken_then_read (P := Demo.platform) 7
              "$argon2id$token" "token" Demo.world0 w' 604800 60
              eq_refl Hrun) as (_ & Hget & Hvalidate).
  destruct (updateHashedRefreshToken_then_read (P := Demo.platform) 7
              "$argon2id$token" "token" Demo.world0 w' 604800 604800
              eq_refl Hrun) as (_ & Hgone & _).
  destruct (updateHashedRefreshToken_then_read (P := Demo.platform) 7
              "not-a-hash" "token" Demo.world0 w'' 604800 60
              eq_refl Hbad) as (_ & _ & Hthrows).
  split; [exact Hget|]. split; [exact Hgone|].
  split; [exact Hvalidate|exact Hthrows].
Defined.

Lemma rejected_write_keeps_session_witness :
  let w := snd (login (P := Demo.platform) 42 Demo.world0) in
  refreshToken (P := DemoUnset.platform) 42 w
  = (Rejected (ReplyError "ERR value is not an integer or out of range"),
     snd (refreshToken (P := DemoUnset.platform) 42 w)) /\
  fst (validateRefreshToken (P := DemoUnset.platform) 42
         "jwt.refresh.42.1700000000"
         (snd (refreshToken (P := DemoUnset.platform) 42 w)))
  = Resolved (IdResponse.mk 42).
Proof.
  intros w.
  assert (refreshToken (P := DemoUnset.platform) 42 w
          = (Rejected (ReplyError "ERR value is not an integer or out of range"),
             snd (refreshToken (P := DemoUnset.platform) 42 w))) as Hrun
    by (vm_compute; reflexivity).
  split; [exact Hrun|].
  destruct (rejected_write_keeps_session (P := DemoUnset.platform) 42 42 ""
              "jwt.refresh.42.1700000000" w) as (_ & Hrefresh & _).
  rewrite (Hrefresh _ _ Hrun). vm_compute. reflexivity.
Defined.

Lemma validateLocalUser_resolved_witness :
  validateLocalUser (P := Demo.platform) "alice@example.com" "old-pass"
    Demo.world0 = (Resolved (IdResponse.mk 1), Demo.world0) /\
  exists user h,
    In user (users Demo.world0) /\
    user_email user = "alice@example.com" /\
    user_id user = 1 /\
    user_password user = Some h /\ h <> "" /\
    Demo.bcrypt_compare "old-pass" h = true.
Proof.
  assert (validateLocalUser (P := Demo.platform) "alice@example.com"
            "old-pass" Demo.world0
          = (Resolved (IdResponse.mk 1), Demo.world0)) as Hrun
    by (vm_compute; reflexivity).
  split; [exact Hrun|].
  exact (proj2 (validateLocalUser_resolved (P := Demo.platform)
                  "alice@example.com" "old-pass" Demo.world0 Demo.world0
                  (IdResponse.mk 1) Hrun)).
Defined.

Lemma updatePassword_rewrites_one_row_witness :
  let dto := mkUpdatePassword "old-pass" "new-pass" "new-pass" in
  let w' := snd (updatePassword (P := Demo.platform) 1 dto Demo.world0) in
  updatePassword (P := Demo.platform) 1 dto Demo.world0 = (Resolved tt, w') /\
  findOneById 2 (users w') = findOneById 2 (users Demo.world0) /\
  map user_email (users w') = map user_email (users Demo.world0).
Proof.
  intros dto w'.
  assert (updatePassword (P := Demo.platform) 1 dto Demo.world0
          = (Resolved tt, w')) as Hrun by (vm_compute; reflexivity).
  split; [exact Hrun|].
  destruct (updatePassword_rewrites_one_row (P := Demo.platform) 1 dto
              Demo.world0 w' Hrun) as (_ & Hother & _ & Hmail).
  split; [apply Hother; lia|exact Hmail].
Defined.
